(** * Options pricing web app: the pricing engine

    A shallow embedding of the numerical core of the two front-end drafts
    ([Options pricing web app_v1.tsx] and [Options pricing web app_v2.tsx]):
    [normalCdf], [blackScholes], [binomialTree], [generateHeatmapData] and the
    part of [Home]'s effect that computes the point prices and the two axes.

    The functions are translated once, over an interface [JSNum] of the
    operations JavaScript offers on its numbers, and read at two instances:
    - [RNum], exact real arithmetic, the reading the specification's formulas
      are written in;
    - [IEEE], binary64 floats (Rocq's primitive floats), the reading the
      runtime executes, where a division by zero yields an infinity or NaN.
    [erf] is imported from mathjs and is an explicit parameter throughout. *)

From Stdlib Require Import ZArith QArith Qreals Reals Lra Lia List Bool String.
From Stdlib Require Import Floats.
From Stdlib Require Import Ascii DecimalString DecimalNat.
Import ListNotations.

Set Implicit Arguments.

(** ** Numbers *)

Declare Scope js_scope.
Delimit Scope js_scope with js.

(** The operations of a JavaScript number the engine uses. *)
Class JSNum (num : Type) : Type := {
  num_lit : Q -> num;               (* a decimal literal, or a loop counter *)
  num_nan : num;                    (* ToNumber(undefined) *)
  num_add : num -> num -> num;
  num_sub : num -> num -> num;
  num_mul : num -> num -> num;
  num_div : num -> num -> num;
  num_neg : num -> num;
  Math_sqrt : num -> num;
  Math_exp : num -> num;
  Math_log : num -> num;
  Math_pow : num -> num -> num;
  Math_max : num -> num -> num;
  toFixed2 : num -> num             (* Number(x.toFixed(2)) *)
}.

Notation "x + y" := (num_add x y) : js_scope.
Notation "x - y" := (num_sub x y) : js_scope.
Notation "x * y" := (num_mul x y) : js_scope.
Notation "x / y" := (num_div x y) : js_scope.
Notation "- x" := (num_neg x) : js_scope.

(** An integer written in the source, or the value of an integral counter. *)
Definition ofZ {num} `{JSNum num} (z : Z) : num := num_lit (inject_Z z).
Definition ofnat {num} `{JSNum num} (n : nat) : num := ofZ (Z.of_nat n).

(** ** Arrays and loops *)

Section Arrays.
Context {num : Type} `{JSNum num}.

(** [a[i]] read as a number: an index past the end reads [undefined]. *)
Definition arr_get (a : list num) (i : nat) : num := nth i a num_nan.

(** [a[i] = v]: inside the array the element is replaced; at or past the
    end the array grows to length [i + 1], the skipped positions being
    holes (they read as [undefined]). *)
Definition arr_set (a : list num) (i : nat) (v : num) : list num :=
  if (i <? List.length a)%nat
  then firstn i a ++ v :: skipn (i + 1) a
  else a ++ repeat num_nan (i - List.length a) ++ [v].
End Arrays.

(** [for (let i = lo; i < lo + n; i++) body], on an explicit state. *)
Definition for_up {St : Type} (lo n : nat) (body : nat -> St -> St) (s : St) : St :=
  fold_left (fun st i => body i st) (seq lo n) s.

(** [for (let j = n - 1; j >= 0; j--) body]. *)
Definition for_down {St : Type} (n : nat) (body : nat -> St -> St) (s : St) : St :=
  fold_left (fun st j => body j st) (rev (seq 0 n)) s.

(** ** The pricers *)

Section Pricers.
Context {num : Type} `{JSNum num}.
Variable erf : num -> num.
Local Open Scope js_scope.

(** [normalCdf], v2 lines 129-131. *)
Definition normalCdf (x : num) : num :=
  (num_lit 1.0 + erf (x / Math_sqrt (num_lit 2.0))) / num_lit 2.0.

(** [blackScholes], v2 lines 77-92 and v1 lines 31-46. *)
Definition blackScholes (S K T r sigma q : num) : num * num :=
  let d1 := (Math_log (S / K) + (r - q + num_lit 0.5 * sigma * sigma) * T)
            / (sigma * Math_sqrt T) in
  let d2 := d1 - sigma * Math_sqrt T in
  let callPrice := S * Math_exp (- q * T) * normalCdf d1
                   - K * Math_exp (- r * T) * normalCdf d2 in
  let putPrice := K * Math_exp (- r * T) * normalCdf (- d2)
                  - S * Math_exp (- q * T) * normalCdf (- d1) in
  (callPrice, putPrice).

(** The terminal payoff of [binomialTree], v2 lines 115-117. *)
Definition payoff (optionType : string) (K price : num) : num :=
  if String.eqb optionType "call"
  then Math_max (ofZ 0) (price - K)
  else Math_max (ofZ 0) (K - price).

(** One sweep of the inner loop, v2 lines 120-122. *)
Definition sweep (disc p : num) (j : nat) (optionPrices : list num) : list num :=
  for_up 0 (j + 1)
    (fun i optionPrices =>
       arr_set optionPrices i
         (disc * (p * arr_get optionPrices i
                  + (ofZ 1 - p) * arr_get optionPrices (i + 1))))
    optionPrices.

(** [binomialTree], v2 lines 95-126 and v1 lines 49-80.  The step count is
    an integer; the result is [None] when [optionPrices[0]] is [undefined]. *)
Definition binomialTree (S K T r sigma q : num) (N : Z) (optionType : string)
  : option num :=
  let dt := T / ofZ N in
  let u := Math_exp (sigma * Math_sqrt dt) in
  let d := ofZ 1 / u in
  let p := (Math_exp ((r - q) * dt) - d) / (u - d) in
  let prices :=
    for_up 0 (Z.to_nat (N + 1))
      (fun i prices =>
         arr_set prices i
           (S * Math_pow u (ofZ N - ofnat i) * Math_pow d (ofnat i)))
      [] in
  let optionPrices := map (payoff optionType K) prices in
  let optionPrices :=
    for_down (Z.to_nat N) (sweep (Math_exp (- r * dt)) p) optionPrices in
  nth_error optionPrices 0.
End Pricers.

(** ** The engine around the pricers *)

(** The [inputs] state of [Home]; [generateHeatmapData] reads the fields
    [S], [T], [r], [sigma], [q] and [N] of the same object. *)
Record Inputs (num : Type) : Type := {
  in_S : num;
  in_K_min : num;
  in_K_max : num;
  in_K_specific : num;
  in_T : num;
  in_r : num;
  in_sigma : num;
  in_q : num;
  in_N : Z
}.

(** The point of the sweep at strike [K] and volatility [vol]. *)
Definition at_point {num} (inputs : Inputs num) (K vol : num) : Inputs num :=
  {| in_S := in_S inputs; in_K_min := in_K_min inputs; in_K_max := in_K_max inputs;
     in_K_specific := K; in_T := in_T inputs; in_r := in_r inputs;
     in_sigma := vol; in_q := in_q inputs; in_N := in_N inputs |}.

(** A value handed to an arithmetic operation: [undefined] becomes NaN. *)
Definition toNumber {num} `{JSNum num} (v : option num) : num :=
  match v with Some x => x | None => num_nan end.

(** The second draft: every call site floors the volatility and the price. *)
Module V2.
Section Engine.
Context {num : Type} `{JSNum num}.
Variable erf : num -> num.
Local Open Scope js_scope.

(** The body of the inner loop of [generateHeatmapData], v2 lines 32-66. *)
Definition cell (model : string) (inputs : Inputs num)
    (strikePrices volatilities : list num) (i j : nat)
    (rows : list num * list num) : list num * list num :=
  let '(callRow, putRow) := rows in
  if String.eqb model "Black-Scholes" then
    let '(callPrice, putPrice) :=
      blackScholes erf (in_S inputs) (arr_get strikePrices j) (in_T inputs)
        (in_r inputs) (Math_max (arr_get volatilities i) (ofZ 0)) (in_q inputs) in
    (callRow ++ [Math_max callPrice (ofZ 0)], putRow ++ [Math_max putPrice (ofZ 0)])
  else if String.eqb model "Binomial Tree" then
    let callPrice :=
      binomialTree (in_S inputs) (arr_get strikePrices j) (in_T inputs)
        (in_r inputs) (Math_max (arr_get volatilities i) (ofZ 0)) (in_q inputs)
        (in_N inputs) "call" in
    let putPrice :=
      binomialTree (in_S inputs) (arr_get strikePrices j) (in_T inputs)
        (in_r inputs) (Math_max (arr_get volatilities i) (ofZ 0)) (in_q inputs)
        (in_N inputs) "put" in
    (callRow ++ [Math_max (toNumber callPrice) (ofZ 0)],
     putRow ++ [Math_max (toNumber putPrice) (ofZ 0)])
  else rows.

(** [generateHeatmapData], v2 lines 11-74: [(callData, putData)]. *)
Definition generateHeatmapData (model : string) (inputs : Inputs num)
    (strikePrices volatilities : list num)
  : list (list num) * list (list num) :=
  for_up 0 (List.length volatilities)
    (fun i data =>
       let '(callData, putData) := data in
       let '(callRow, putRow) :=
         for_up 0 (List.length strikePrices)
           (cell model inputs strikePrices volatilities i) ([], []) in
       (callData ++ [callRow], putData ++ [putRow]))
    ([], []).

(** The point prices of [Home]'s effect, v2 lines 165-178: the argument of
    [setResults], or [None] when no branch runs. *)
Definition computeResults (model : string) (inputs : Inputs num)
  : option (num * num) :=
  if String.eqb model "Black-Scholes" then
    let '(callPrice, putPrice) :=
      blackScholes erf (in_S inputs) (in_K_specific inputs) (in_T inputs)
        (in_r inputs) (Math_max (in_sigma inputs) (ofZ 0)) (in_q inputs) in
    Some (Math_max callPrice (ofZ 0), Math_max putPrice (ofZ 0))
  else if String.eqb model "Binomial Tree" then
    let callPrice :=
      binomialTree (in_S inputs) (in_K_specific inputs) (in_T inputs)
        (in_r inputs) (Math_max (in_sigma inputs) (ofZ 0)) (in_q inputs)
        (in_N inputs) "call" in
    let putPrice :=
      binomialTree (in_S inputs) (in_K_specific inputs) (in_T inputs)
        (in_r inputs) (Math_max (in_sigma inputs) (ofZ 0)) (in_q inputs)
        (in_N inputs) "put" in
    Some (Math_max (toNumber callPrice) (ofZ 0),
          Math_max (toNumber putPrice) (ofZ 0))
  else None.

(** The strike axis, v2 line 181, after [.map(Number)] of line 184. *)
Definition strikePrices (inputs : Inputs num) : list num :=
  map (fun i =>
         toFixed2 (in_K_min inputs
                   + ofnat i * (in_K_max inputs - in_K_min inputs) / ofZ 9))
      (seq 0 10).

(** The volatility axis, v2 line 182, after [.map(Number)] of line 184. *)
Definition volatilities (inputs : Inputs num) : list num :=
  rev (map (fun i =>
              toFixed2 (Math_max ((in_sigma inputs - num_lit 0.1)
                                  + ofnat i * num_lit 0.02) (ofZ 0)))
           (seq 0 10)).
End Engine.
End V2.

(** The first draft: the same engine without the floors; a price of the
    lattice may be [undefined], so a grid entry is an [option]. *)
Module V1.
Section Engine.
Context {num : Type} `{JSNum num}.
Variable erf : num -> num.
Local Open Scope js_scope.

(** The body of the inner loop of [generateHeatmapData], v1 lines 109-142. *)
Definition cell (model : string) (inputs : Inputs num)
    (strikePrices volatilities : list num) (i j : nat)
    (rows : list (option num) * list (option num))
  : list (option num) * list (option num) :=
  let '(callRow, putRow) := rows in
  if String.eqb model "Black-Scholes" then
    let '(callPrice, putPrice) :=
      blackScholes erf (in_S inputs) (arr_get strikePrices j) (in_T inputs)
        (in_r inputs) (arr_get volatilities i) (in_q inputs) in
    (callRow ++ [Some callPrice], putRow ++ [Some putPrice])
  else if String.eqb model "Binomial Tree" then
    let callPrice :=
      binomialTree (in_S inputs) (arr_get strikePrices j) (in_T inputs)
        (in_r inputs) (arr_get volatilities i) (in_q inputs) (in_N inputs) "call" in
    let putPrice :=
      binomialTree (in_S inputs) (arr_get strikePrices j) (in_T inputs)
        (in_r inputs) (arr_get volatilities i) (in_q inputs) (in_N inputs) "put" in
    (callRow ++ [callPrice], putRow ++ [putPrice])
  else rows.

(** [generateHeatmapData], v1 lines 88-151. *)
Definition generateHeatmapData (model : string) (inputs : Inputs num)
    (strikePrices volatilities : list num)
  : list (list (option num)) * list (list (option num)) :=
  for_up 0 (List.length volatilities)
    (fun i data =>
       let '(callData, putData) := data in
       let '(callRow, putRow) :=
         for_up 0 (List.length strikePrices)
           (cell model inputs strikePrices volatilities i) ([], []) in
       (callData ++ [callRow], putData ++ [putRow]))
    ([], []).

(** The point prices of [Home]'s effect, v1 lines 328-342. *)
Definition computeResults (model : string) (inputs : Inputs num)
  : option (option num * option num) :=
  if String.eqb model "Black-Scholes" then
    let '(callPrice, putPrice) :=
      blackScholes erf (in_S inputs) (in_K_specific inputs) (in_T inputs)
        (in_r inputs) (in_sigma inputs) (in_q inputs) in
    Some (Some callPrice, Some putPrice)
  else if String.eqb model "Binomial Tree" then
    let callPrice :=
      binomialTree (in_S inputs) (in_K_specific inputs) (in_T inputs)
        (in_r inputs) (in_sigma inputs) (in_q inputs) (in_N inputs) "call" in
    let putPrice :=
      binomialTree (in_S inputs) (in_K_specific inputs) (in_T inputs)
        (in_r inputs) (in_sigma inputs) (in_q inputs) (in_N inputs) "put" in
    Some (callPrice, putPrice)
  else None.

(** The strike axis, v1 line 344, after [.map(Number)] of line 347. *)
Definition strikePrices (inputs : Inputs num) : list num :=
  map (fun i =>
         toFixed2 (in_K_min inputs
                   + ofnat i * (in_K_max inputs - in_K_min inputs) / ofZ 9))
      (seq 0 10).

(** The volatility axis, v1 line 345, after [.map(Number)] of line 347. *)
Definition volatilities (inputs : Inputs num) : list num :=
  rev (map (fun i =>
              toFixed2 ((in_sigma inputs - num_lit 0.1) + ofnat i * num_lit 0.02))
           (seq 0 10)).
End Engine.
End V1.

(** ** How a call completes *)

(** The failures the specification names. *)
Inductive EngineError : Type :=
  | InvalidParameter
  | DegenerateSingularity
  | NumericOverflow.

(** A call returns a value or throws. *)
Inductive completion (A : Type) : Type :=
  | Normal (v : A)
  | Throw (e : EngineError).
Arguments Throw {A} e.

Section Completions.
Context {num : Type} `{JSNum num}.
Variable erf : num -> num.

(** Neither pricer contains a [throw], and number arithmetic, [Math.*],
    [erf] on a number, and array reads and writes never throw: every call
    completes normally with the value computed. *)
Definition blackScholes_run (S K T r sigma q : num) : completion (num * num) :=
  Normal (blackScholes erf S K T r sigma q).

Definition binomialTree_run (S K T r sigma q : num) (N : Z) (optionType : string)
  : completion (option num) :=
  Normal (binomialTree S K T r sigma q N optionType).
End Completions.

(** ** Exact arithmetic *)

(** [Number(x.toFixed(2))] on a real: the sign is set aside, a magnitude of
    at least 10^21 is printed in full, and otherwise the integer [n] with
    [n / 100] nearest to the magnitude is taken, the larger on a tie. *)
Definition R_toFixed2 (x : R) : R :=
  let a := if Rlt_dec x 0 then (- x)%R else x in
  let m := if Rle_dec (10 ^ 21) a then a
           else (IZR (Zfloor (a * 100 + / 2)) / 100)%R in
  if Rlt_dec x 0 then (- m)%R else m.

(** The engine's numbers read as reals.  [num_nan] has no real counterpart;
    it stands for a value no run with [0 <= N] ever reads.  [Math.pow] is
    applied to positive bases only, where it is [Rpower].

    The reals have neither NaN nor an infinity, and the Standard Library
    makes its functions total: x / 0 = 0, ln x = 0 for x <= 0 and
    sqrt x = 0 for x < 0, where binary64 gives NaN or an infinity.  A
    statement over this instance speaks of the code where its hypotheses
    keep every division, logarithm and square root inside its domain, or
    where it does not depend on their values, and then up to rounding; what
    the code does outside is stated over [IEEE] below. *)
#[export] Instance RNum : JSNum R := {
  num_lit := Q2R;
  num_nan := 0%R;
  num_add := Rplus;
  num_sub := Rminus;
  num_mul := Rmult;
  num_div := Rdiv;
  num_neg := Ropp;
  Math_sqrt := R_sqrt.sqrt;
  Math_exp := exp;
  Math_log := ln;
  Math_pow := Rpower;
  Math_max := Rmax;
  toFixed2 := R_toFixed2
}.

(** ** Binary64 arithmetic *)

(** What ECMA-262 fixes of the functions a runtime approximates: the values
    at the arguments where the standard names the result.  Everywhere else
    the result is implementation-approximated and left open here. *)
Record ESMath : Type := {
  es_exp : float -> float;
  es_log : float -> float;
  es_pow : float -> float -> float;
  es_toFixed2 : float -> float;
  es_exp_zero : es_exp 0%float = 1%float;
  es_exp_negzero : es_exp (-0)%float = 1%float;
  es_log_one : es_log 1%float = 0%float;
  es_pow_zero : forall x, es_pow x 0%float = 1%float
}.

(** An integer as a float (exact below 2^53). *)
Definition float_of_Z (z : Z) : float :=
  match z with
  | Z0 => 0%float
  | Zpos _ => PrimFloat.of_uint63 (Uint63.of_Z z)
  | Zneg p => (- PrimFloat.of_uint63 (Uint63.of_Z (Zpos p)))%float
  end.

(** A decimal literal: the float nearest to it, obtained by the correctly
    rounded quotient of its numerator and denominator. *)
Definition float_lit (x : Q) : float :=
  (float_of_Z (Qnum x) / float_of_Z (Zpos (Qden x)))%float.

(** [Math.max] of two numbers: NaN if either is, and [+0] above [-0]. *)
Definition float_max (x y : float) : float :=
  if PrimFloat.is_nan x || PrimFloat.is_nan y then nan
  else if (x <? y)%float then y
  else if (y <? x)%float then x
  else match PrimFloat.classify x with NZero => y | _ => x end.

#[export] Instance IEEE (M : ESMath) : JSNum float := {
  num_lit := float_lit;
  num_nan := nan;
  num_add := PrimFloat.add;
  num_sub := PrimFloat.sub;
  num_mul := PrimFloat.mul;
  num_div := PrimFloat.div;
  num_neg := PrimFloat.opp;
  Math_sqrt := PrimFloat.sqrt;
  Math_exp := es_exp M;
  Math_log := es_log M;
  Math_pow := es_pow M;
  Math_max := float_max;
  toFixed2 := es_toFixed2 M
}.

(** A runtime whose approximations are low-order Taylor polynomials; it
    meets every requirement of [ESMath]. *)
Definition taylor_exp (x : float) : float := (1 + x + x * x / 2)%float.
Definition taylor_log (x : float) : float := (x - 1)%float.
Definition taylor_pow (x y : float) : float :=
  if (y =? 0)%float then 1%float else taylor_exp (y * taylor_log x)%float.

Definition taylor_math : ESMath :=
  {| es_exp := taylor_exp;
     es_log := taylor_log;
     es_pow := taylor_pow;
     es_toFixed2 := fun x => x;
     es_exp_zero := eq_refl;
     es_exp_negzero := eq_refl;
     es_log_one := eq_refl;
     es_pow_zero := fun _ => eq_refl |}.

(** ** [toFixed(2)] in binary64 *)

(** ECMA-262 fixes [Number.prototype.toFixed] and the reading of a decimal
    string exactly, so [Number(x.toFixed(2))] is computed here rather than
    left to the runtime.  A finite float is [m * 2^e]; [cents m e] is the
    integer n with n / 100 nearest to it, the larger one at a tie. *)
Definition cents (m : positive) (e : Z) : Z :=
  match e with
  | Zneg k => (200 * Zpos m + 2 ^ Zpos k) / 2 ^ (Zpos k + 1)
  | _ => 100 * Zpos m * 2 ^ e
  end.

(** From 10^21 on, [toFixed] prints the number as [toString] does. *)
Definition prints_as_toString (m : positive) (e : Z) : bool :=
  match e with
  | Zneg k => (10 ^ 21 * 2 ^ Zpos k <=? Zpos m)%Z
  | _ => (10 ^ 21 <=? Zpos m * 2 ^ e)%Z
  end.

(** [Number] of the digits of n cents: the float nearest to n / 100. *)
Definition Number_of_cents (n : Z) : float :=
  match n with
  | Zpos k => SF2Prim (SFdiv prec emax (S754_finite false k 0)
                         (S754_finite false 100 0))
  | _ => 0%float
  end.

Definition float_toFixed2 (x : float) : float :=
  match Prim2SF x with
  | S754_nan => nan
  | S754_infinity _ => x
  | S754_zero _ => 0%float
  | S754_finite negative m e =>
      if prints_as_toString m e then x
      else if negative then (- Number_of_cents (cents m e))%float
      else Number_of_cents (cents m e)
  end.

(** The Taylor runtime with the [toFixed] of the standard. *)
Definition printing_math : ESMath :=
  {| es_exp := taylor_exp;
     es_log := taylor_log;
     es_pow := taylor_pow;
     es_toFixed2 := float_toFixed2;
     es_exp_zero := eq_refl;
     es_exp_negzero := eq_refl;
     es_log_one := eq_refl;
     es_pow_zero := fun _ => eq_refl |}.

(** A float is a price when it is neither NaN nor an infinity. *)
Definition is_price (x : float) : bool :=
  negb (PrimFloat.is_nan x) && negb (PrimFloat.is_infinity x).

(** A stand-in for [erf] on the reals, odd and with values in [-1, 1]: it
    shows that what is assumed of mathjs's [erf] below can be met. *)
Definition softsign (x : R) : R := (x / (1 + Rabs x))%R.

(** ** The specification's formulas, in its own words *)

Inductive OptionSide : Type := Call | Put.

(** The string the engine passes for a side. *)
Definition side_name (side : OptionSide) : string :=
  match side with Call => "call" | Put => "put" end.

Module Spec.
Section Formulas.
Local Open Scope R_scope.
Variable Phi : R -> R.
Variables S K T r sigma q : R.

(** Section 4.2, the analytic pricer. *)
Definition d1 : R :=
  (ln (S / K) + (r - q + 0.5 * sigma ^ 2) * T) / (sigma * R_sqrt.sqrt T).
Definition d2 : R := d1 - sigma * R_sqrt.sqrt T.
Definition call : R :=
  S * exp (- (q * T)) * Phi d1 - K * exp (- (r * T)) * Phi d2.
Definition put : R :=
  K * exp (- (r * T)) * Phi (- d2) - S * exp (- (q * T)) * Phi (- d1).

(** Section 4.3, the lattice pricer with [N] steps. *)
Variable N : nat.
Definition dt : R := T / INR N.
Definition u : R := exp (sigma * R_sqrt.sqrt dt).
Definition d : R := 1 / u.
Definition p : R := (exp ((r - q) * dt) - d) / (u - d).

Definition terminal_prices : list R :=
  map (fun i => S * u ^ (N - i) * d ^ i) (seq 0 (N + 1)).

Definition terminal_payoff (side : OptionSide) (price : R) : R :=
  match side with
  | Call => Rmax 0 (price - K)
  | Put => Rmax 0 (K - price)
  end.

(** Step [j] of the backward induction: nodes [0..j] of the narrowed array. *)
Definition step (value : list R) (j : nat) : list R :=
  map (fun i => exp (- (r * dt)) * (p * nth i value 0 + (1 - p) * nth (i + 1) value 0))
      (seq 0 (j + 1)).

Definition backward_induction (value : list R) : list R :=
  fold_left step (rev (seq 0 N)) value.

Definition lattice_price (side : OptionSide) : R :=
  nth 0 (backward_induction (map (terminal_payoff side) terminal_prices)) 0.
End Formulas.

(** Section 4.5, the strike axis: [count] linearly spaced values. *)
Definition linear_strike (count : nat) (min max : R) (j : nat) : R :=
  (min + INR j * (max - min) / (INR count - 1))%R.
End Spec.

(** The zero-volatility limit of section 7 on the engine's numbers. *)
Section Limit.
Context {num : Type} `{JSNum num}.
Local Open Scope js_scope.

Definition limit_call (S K T r q : num) : num :=
  Math_max (ofZ 0) (S * Math_exp (- (q * T)) - K * Math_exp (- (r * T))).
Definition limit_put (S K T r q : num) : num :=
  Math_max (ofZ 0) (K * Math_exp (- (r * T)) - S * Math_exp (- (q * T))).
End Limit.

(** The parameters section 7 calls invalid. *)
Definition invalid_parameter (S K T sigma : R) (N : Z) : Prop :=
  (S <= 0 \/ K <= 0 \/ T <= 0 \/ sigma < 0)%R \/ (N < 1)%Z.

(** Section 7's policy at zero volatility, for one input: both pricers
    return the limit prices, which are prices, or both fail. *)
Definition degenerate_policy (M : ESMath) (erf : float -> float)
    (S K T r q : float) (N : Z) : Prop :=
  let lc := @limit_call _ (IEEE M) S K T r q in
  let lp := @limit_put _ (IEEE M) S K T r q in
  (@blackScholes_run _ (IEEE M) erf S K T r 0%float q = Normal (lc, lp)
   /\ @binomialTree_run _ (IEEE M) S K T r 0%float q N "call" = Normal (Some lc)
   /\ @binomialTree_run _ (IEEE M) S K T r 0%float q N "put" = Normal (Some lp)
   /\ is_price lc = true /\ is_price lp = true)
  \/
  (@blackScholes_run _ (IEEE M) erf S K T r 0%float q = Throw DegenerateSingularity
   /\ @binomialTree_run _ (IEEE M) S K T r 0%float q N "call" = Throw DegenerateSingularity
   /\ @binomialTree_run _ (IEEE M) S K T r 0%float q N "put" = Throw DegenerateSingularity).

(** ** The backward induction without mutation *)

(** The lattice on a fresh array per step; [binomialTree_narrowing] below
    shows that the in-place loops of [binomialTree] compute the same root. *)
Section Narrowing.
Context {num : Type} `{JSNum num}.
Local Open Scope js_scope.

Definition node (disc p : num) (value : list num) (i : nat) : num :=
  disc * (p * arr_get value i + (ofZ 1 - p) * arr_get value (i + 1)).

Definition narrow (disc p : num) (value : list num) (j : nat) : list num :=
  map (node disc p value) (seq 0 (j + 1)).

Definition terminal (S u d : num) (N : Z) (i : nat) : num :=
  S * Math_pow u (ofZ N - ofnat i) * Math_pow d (ofnat i).

Definition lattice (S K T r sigma q : num) (N : Z) (optionType : string)
  : list num :=
  let dt := T / ofZ N in
  let u := Math_exp (sigma * Math_sqrt dt) in
  let d := ofZ 1 / u in
  let p := (Math_exp ((r - q) * dt) - d) / (u - d) in
  fold_left (narrow (Math_exp (- r * dt)) p) (rev (seq 0 (Z.to_nat N)))
    (map (payoff optionType K)
       (map (terminal S u d N) (seq 0 (Z.to_nat N + 1)))).

(** The same lattice over a terminal payoff given as a function of the
    terminal asset price. *)
Definition lattice_of_payoff (terminal_payoff : num -> num)
    (S T r sigma q : num) (N : Z) : list num :=
  let dt := T / ofZ N in
  let u := Math_exp (sigma * Math_sqrt dt) in
  let d := ofZ 1 / u in
  let p := (Math_exp ((r - q) * dt) - d) / (u - d) in
  fold_left (narrow (Math_exp (- r * dt)) p) (rev (seq 0 (Z.to_nat N)))
    (map terminal_payoff
       (map (terminal S u d N) (seq 0 (Z.to_nat N + 1)))).
End Narrowing.

(** ** What the grid is compared with *)

(** The prices of a point computation that ran, and a filler otherwise. *)
Definition results_or {A : Type} (filler : A) (results : option (A * A)) : A * A :=
  match results with Some prices => prices | None => (filler, filler) end.

(** Entry [i][j] of a matrix, when both indices are inside. *)
Definition entry {A : Type} (matrix : list (list A)) (i j : nat) : option A :=
  match nth_error matrix i with
  | Some row => nth_error row j
  | None => None
  end.

(** Section 8 on the grid: one row per volatility, one column per strike,
    and entry [i][j] the point computation at strike [j], volatility [i]. *)
Definition grid_of_points {num A : Type} (point : num -> num -> option (A * A))
    (strikePrices volatilities : list num)
    (data : list (list A) * list (list A)) : Prop :=
  List.length (fst data) = List.length volatilities
  /\ List.length (snd data) = List.length volatilities
  /\ Forall (fun row => List.length row = List.length strikePrices) (fst data)
  /\ Forall (fun row => List.length row = List.length strikePrices) (snd data)
  /\ forall i j vol K,
       nth_error volatilities i = Some vol ->
       nth_error strikePrices j = Some K ->
       exists callPrice putPrice,
         point K vol = Some (callPrice, putPrice)
         /\ entry (fst data) i j = Some callPrice
         /\ entry (snd data) i j = Some putPrice.

Section CellPrices.
Context {num : Type} `{JSNum num}.
Variable erf : num -> num.
Variables (model : string) (inputs : Inputs num).
Variables strikePrices volatilities : list num.

(** The point computation at a cell of the sweep, second draft. *)
Definition V2_cellPrices (i j : nat) : num * num :=
  results_or num_nan
    (V2.computeResults erf model
       (at_point inputs (arr_get strikePrices j) (arr_get volatilities i))).

(** The point computation at a cell of the sweep, first draft. *)
Definition V1_cellPrices (i j : nat) : option num * option num :=
  results_or None
    (V1.computeResults erf model
       (at_point inputs (arr_get strikePrices j) (arr_get volatilities i))).
End CellPrices.

(** The inputs [Home] starts from, v2 lines 145-155. *)
Definition default_inputs : Inputs R :=
  {| in_S := 100.42%R; in_K_min := 80.0%R; in_K_max := 120.0%R;
     in_K_specific := 93.45%R; in_T := 1.0%R; in_r := 0.05%R;
     in_sigma := 0.2%R; in_q := 0.0%R; in_N := 100 |}.

(** The inputs [Home] starts from, as floats. *)
Definition default_finputs : Inputs float :=
  {| in_S := float_lit 100.42; in_K_min := float_lit 80.0;
     in_K_max := float_lit 120.0; in_K_specific := float_lit 93.45;
     in_T := float_lit 1.0; in_r := float_lit 0.05;
     in_sigma := float_lit 0.2; in_q := float_lit 0.0; in_N := 100 |}.

(** The same with a strike range and a volatility typed with three decimals. *)
Definition narrow_range_finputs : Inputs float :=
  {| in_S := float_lit 100.42; in_K_min := float_lit 0.1;
     in_K_max := float_lit 0.325; in_K_specific := float_lit 93.45;
     in_T := float_lit 1.0; in_r := float_lit 0.05;
     in_sigma := float_lit 0.125; in_q := float_lit 0.0; in_N := 100 |}.

(** The default inputs with a volatility of 0.05, as reals and as floats. *)
Definition low_volatility_inputs : Inputs R :=
  {| in_S := 100.42%R; in_K_min := 80.0%R; in_K_max := 120.0%R;
     in_K_specific := 93.45%R; in_T := 1.0%R; in_r := 0.05%R;
     in_sigma := 0.05%R; in_q := 0.0%R; in_N := 100 |}.

Definition low_volatility_finputs : Inputs float :=
  {| in_S := float_lit 100.42; in_K_min := float_lit 80.0;
     in_K_max := float_lit 120.0; in_K_specific := float_lit 93.45;
     in_T := float_lit 1.0; in_r := float_lit 0.05;
     in_sigma := float_lit 0.05; in_q := float_lit 0.0; in_N := 100 |}.

(** Valid inputs with a steep drift: one step, r = 2, sigma = 1. *)
Definition steep_drift_inputs : Inputs R :=
  {| in_S := 1%R; in_K_min := 1%R; in_K_max := 1%R;
     in_K_specific := 1%R; in_T := 1%R; in_r := 2%R;
     in_sigma := 1%R; in_q := 0%R; in_N := 1 |}.

(** ** The heat map of [Home] *)

(** The matrices [Home]'s effect hands to [setHeatmapData]: the grid over
    the two axes, v2 lines 181-185 and v1 lines 344-348. *)
Definition V2_heatmap {num : Type} `{JSNum num} (erf : num -> num)
    (model : string) (inputs : Inputs num)
  : list (list num) * list (list num) :=
  V2.generateHeatmapData erf model inputs
    (V2.strikePrices inputs) (V2.volatilities inputs).

Definition V1_heatmap {num : Type} `{JSNum num} (erf : num -> num)
    (model : string) (inputs : Inputs num)
  : list (list (option num)) * list (list (option num)) :=
  V1.generateHeatmapData erf model inputs
    (V1.strikePrices inputs) (V1.volatilities inputs).

(** Both matrices have 10 rows of 10 entries. *)
Definition ten_by_ten {A : Type} (data : list (list A) * list (list A)) : Prop :=
  List.length (fst data) = 10%nat
  /\ List.length (snd data) = 10%nat
  /\ Forall (fun row => List.length row = 10%nat) (fst data)
  /\ Forall (fun row => List.length row = 10%nat) (snd data).

(** The magnitude [toFixed(2)] prints for a magnitude [a]. *)
Definition toFixed2_magnitude (a : R) : R :=
  if Rle_dec (10 ^ 21) a then a else (IZR (Zfloor (a * 100 + / 2)) / 100)%R.

(** ** The colours of the first draft *)

(** What the presentation code asks of a number besides [JSNum]. *)
Class JSNumUI (num : Type) : Type := {
  Math_floor : num -> num;
  Math_ceil : num -> num;
  Math_min : num -> num -> num;
  num_gt : num -> num -> bool;          (* x > y *)
  num_eq : num -> num -> bool;          (* x === y *)
  num_infinity : num;                   (* Infinity *)
  array_index : num -> option nat;      (* the element a[x] names, if any *)
  array_length : num -> option nat      (* Array(x): a length, or a RangeError *)
}.

(** A non-negative integer printed by a template literal. *)
Definition show_nat (n : nat) : string := NilEmpty.string_of_uint (Nat.to_uint n).

(** [viridisColors], v1 lines 156-159. *)
Definition viridisColors : list (nat * nat * nat) :=
  [(68, 1, 84); (71, 44, 122); (59, 81, 139); (44, 113, 142); (33, 144, 140);
   (39, 170, 121); (68, 192, 98); (110, 206, 74); (165, 218, 43); (253, 231, 37)]%nat.

(** The template literal of v1 line 162. *)
Definition rgb (color : nat * nat * nat) : string :=
  let '(r, g, b) := color in
  ("rgb(" ++ show_nat r ++ ", " ++ show_nat g ++ ", " ++ show_nat b ++ ")")%string.

(** The character class of [/[^\d,]/g]: what [replace] keeps. *)
Definition digit_or_comma (c : ascii) : bool :=
  ((48 <=? nat_of_ascii c) && (nat_of_ascii c <=? 57))%nat
  || Ascii.eqb c ","%char.

Fixpoint string_filter (keep : ascii -> bool) (s : string) : string :=
  match s with
  | EmptyString => EmptyString
  | String c rest =>
      if keep c then String c (string_filter keep rest)
      else string_filter keep rest
  end.

(** [s.split(',')]. *)
Fixpoint split_commas (s : string) : list string :=
  match s with
  | EmptyString => [EmptyString]
  | String c rest =>
      if Ascii.eqb c ","%char then EmptyString :: split_commas rest
      else match split_commas rest with
           | piece :: pieces => String c piece :: pieces
           | [] => [String c EmptyString]
           end
  end.

Section Colours.
Context {num : Type} `{JSNum num} `{JSNumUI num}.
Local Open Scope js_scope.

(** [Number(s)] where [s] holds decimal digits only, as every piece left by
    the [replace] and the [split] does; the empty string is 0. *)
Definition Number_digits (s : string) : num :=
  match NilEmpty.uint_of_string s with
  | Some digits => ofnat (Nat.of_uint digits)
  | None => num_nan
  end.

(** [viridisColor], v1 lines 154-163. *)
Definition viridis_scale (value min max : num) : num :=
  Math_max (ofZ 0) (Math_min (ofZ 1) ((value - min) / (max - min))).

Definition viridis_index (value min max : num) : num :=
  Math_floor (viridis_scale value min max
              * (ofnat (List.length viridisColors) - ofZ 1)).

Definition viridis_triple (value min max : num) : nat * nat * nat :=
  let colorIndex := viridis_index value min max in
  match array_index colorIndex with
  | Some i =>
      match nth_error viridisColors i with
      | Some color => color
      | None => nth 0 viridisColors (0, 0, 0)%nat
      end
  | None => nth 0 viridisColors (0, 0, 0)%nat
  end.

Definition viridisColor (value min max : num) : string :=
  rgb (viridis_triple value min max).

(** [getBrightness], v1 lines 166-168. *)
Definition getBrightness (r g b : num) : num :=
  (r * ofZ 299 + g * ofZ 587 + b * ofZ 114) / ofZ 1000.

(** The numbers [cellStyle] reads back from the colour, v1 lines 455-458. *)
Definition parse_rgb (colour : string) : list num :=
  map Number_digits (split_commas (string_filter digit_or_comma colour)).

(** [cellStyle], v1 lines 449-466: [(background, color)]. *)
Definition cellStyle (value min max : num) : string * string :=
  let parts := parse_rgb (viridisColor value min max) in
  let r := arr_get parts 0 in
  let g := arr_get parts 1 in
  let b := arr_get parts 2 in
  let brightness := getBrightness r g b in
  (viridisColor value min max,
   if num_gt brightness (ofZ 128) then "black"%string else "white"%string).
End Colours.

(** The presentation's operations on the reals.  [num_infinity] has no real
    counterpart; it stands for the minimum of no value at all.  As for
    [RNum], a quotient by zero is 0 here and NaN or an infinity in the code:
    the colour of a value is stated for min < max only. *)
#[export] Instance RNumUI : JSNumUI R := {
  Math_floor := fun x => IZR (Zfloor x);
  Math_ceil := fun x => IZR (Zceil x);
  Math_min := Rmin;
  num_gt := fun x y => if Rlt_dec y x then true else false;
  num_eq := fun x y => if Req_dec_T x y then true else false;
  num_infinity := 0%R;
  array_index := fun x =>
    if Req_dec_T x (IZR (Zfloor x))
    then if Rle_dec 0 x then Some (Z.to_nat (Zfloor x)) else None
    else None;
  array_length := fun x =>
    if Req_dec_T x (IZR (Zfloor x))
    then if Rle_dec 0 x
         then if Rlt_dec x (2 ^ 32) then Some (Z.to_nat (Zfloor x)) else None
         else None
    else None
}.

(** ** The colour bar of the first draft and the plot of the second *)

Section Presentation.
Context {num : Type} `{JSNum num} `{JSNumUI num}.
Local Open Scope js_scope.

(** [Math.min(...values)] and [Math.max(...values)]. *)
Definition Math_min_all (values : list num) : num :=
  match values with
  | [] => num_infinity
  | x :: rest => fold_left Math_min rest x
  end.

Definition Math_max_all (values : list num) : num :=
  match values with
  | [] => - num_infinity
  | x :: rest => fold_left Math_max rest x
  end.

(** The ticks of [ColorBar], v1 lines 177-179 and 222-228: [None] when
    [Array(steps)] throws a RangeError, else one entry per index, [None]
    for the [null] of line 225 and the tick's value and position in pixels
    otherwise. *)
Definition ColorBar_ticks (min max height : num)
  : option (list (option (num * num))) :=
  let roundedMin := Math_ceil (min / ofZ 5) * ofZ 5 in
  let roundedMax := Math_floor (max / ofZ 5) * ofZ 5 in
  let steps := (roundedMax - roundedMin) / ofZ 5 + ofZ 1 in
  match array_length steps with
  | None => None
  | Some n =>
      Some (map (fun i =>
                   let value := roundedMin + ofnat i * ofZ 5 in
                   if num_eq value roundedMax then None
                   else
                     let relativePosition := (value - min) / (max - min) in
                     let position := relativePosition * (height - ofZ 20) in
                     Some (value, position))
                (seq 0 n))
  end.

(** What [value.toFixed(2)] prints is left to the runtime. *)
Variable toFixed_text : num -> string.

Record Cell : Type := {
  cell_value : num;
  cell_text : string;
  cell_color : string
}.

(** [formatHeatmapData], v2 lines 200-211. *)
Definition formatHeatmapData (data : list (list num)) : list (list Cell) :=
  let min := Math_min_all (List.concat data) in
  let max := Math_max_all (List.concat data) in
  map (fun row =>
         map (fun value =>
                {| cell_value := value;
                   cell_text := toFixed_text value;
                   cell_color :=
                     if num_gt ((value - min) / (max - min)) (num_lit 0.5)
                     then "white"%string else "black"%string |})
             row)
      data.

(** The [text], [zmin] and [zmax] of a trace of the plot, v2 lines 295-298. *)
Definition plot_text (data : list (list num)) : list (list string) :=
  map (fun row => map cell_text row) (formatHeatmapData data).

Definition plot_zmin (data : list (list num)) : num :=
  Math_max (Math_min_all (List.concat data)) (ofZ 0).

Definition plot_zmax (data : list (list num)) : num :=
  Math_max_all (List.concat data).
End Presentation.

(** * Properties *)

(** ** The model at work *)

Example arr_set_inside :
  @arr_set _ (IEEE taylor_math) [1; 2; 3]%float 1 9%float = [1; 9; 3]%float.
Proof. reflexivity. Qed.

Example arr_set_past_the_end :
  @arr_set _ (IEEE taylor_math) [1]%float 3 9%float = [1; nan; nan; 9]%float.
Proof. reflexivity. Qed.

Example for_down_order : for_down 3 (fun j visited => visited ++ [j]) [] = [2; 1; 0]%nat.
Proof. reflexivity. Qed.

Example float_max_zeros : float_max (-0)%float 0%float = 0%float.
Proof. reflexivity. Qed.

Example float_max_nan : float_max nan 1%float = nan.
Proof. reflexivity. Qed.

Example float_lit_tenth : float_lit 0.1 = 0x1.999999999999ap-4%float.
Proof. reflexivity. Qed.

(** One step at zero volatility, run on the Taylor runtime. *)
Example binomialTree_runs :
  @binomialTree _ (IEEE taylor_math) 1%float 1%float 1%float 0%float 0%float 0%float
    1 "call" = Some nan.
Proof. vm_compute. reflexivity. Qed.

(** No steps: the terminal payoff of the spot. *)
Example binomialTree_no_steps :
  @binomialTree _ (IEEE taylor_math) 100%float 95%float 1%float 0%float 1%float
    0%float 0 "call" = Some 5%float.
Proof. vm_compute. reflexivity. Qed.

Example binomialTree_undefined :
  @binomialTree _ (IEEE taylor_math) 100%float 95%float 1%float 0%float 1%float
    0%float (-1) "call" = None.
Proof. reflexivity. Qed.

(** [Number(x.toFixed(2))]: 1.005 and 2.675 are floats just below the
    tie, NaN and the zeros print without a sign. *)
Example float_toFixed2_below_tie :
  float_toFixed2 (float_lit 1.005) = 1%float
  /\ float_toFixed2 (float_lit (-2.675)) = float_lit (-2.67).
Proof. vm_compute. split; reflexivity. Qed.

Example float_toFixed2_cents :
  float_toFixed2 (float_lit 84.44) = float_lit 84.44
  /\ float_toFixed2 (80 + 1 * (120 - 80) / 9)%float = float_lit 84.44.
Proof. vm_compute. split; reflexivity. Qed.

Example float_toFixed2_special :
  float_toFixed2 nan = nan
  /\ float_toFixed2 (-0)%float = 0%float
  /\ float_toFixed2 infinity = infinity
  /\ float_toFixed2 (float_lit (-0.004)) = (-0)%float
  /\ float_toFixed2 (float_of_Z (10 ^ 15) * float_of_Z (10 ^ 7))%float
     = (float_of_Z (10 ^ 15) * float_of_Z (10 ^ 7))%float.
Proof. vm_compute. repeat split. Qed.

(** ** Arrays and loops *)

Section ArrayFacts.
Context {num : Type} `{JSNum num}.

Lemma arr_set_end (a : list num) (v : num) :
  arr_set a (List.length a) v = a ++ [v].
Proof.
  unfold arr_set. rewrite Nat.ltb_irrefl, Nat.sub_diag. reflexivity.
Qed.

Lemma arr_set_length (a : list num) (i : nat) (v : num) :
  (i < List.length a)%nat -> List.length (arr_set a i v) = List.length a.
Proof.
  intros Hi. unfold arr_set.
  destruct (Nat.ltb_spec i (List.length a)); [|lia].
  rewrite length_app, length_firstn. cbn [List.length].
  rewrite length_skipn. lia.
Qed.

Lemma arr_get_skipn (a : list num) (k i : nat) :
  arr_get (skipn k a) i = arr_get a (k + i).
Proof.
  unfold arr_get. revert a. induction k as [|k IH]; intros a; [reflexivity|].
  destruct a as [|x a]; cbn [skipn].
  - destruct i; reflexivity.
  - apply IH.
Qed.

Lemma arr_get_app_r (a b : list num) (i : nat) :
  arr_get (a ++ b) (List.length a + i) = arr_get b i.
Proof.
  unfold arr_get. rewrite app_nth2 by lia. f_equal. lia.
Qed.

Lemma arr_get_firstn (a : list num) (m i : nat) :
  (i < m)%nat -> arr_get (firstn m a) i = arr_get a i.
Proof.
  unfold arr_get. revert a i. induction m as [|m IH]; intros a i Hi; [lia|].
  destruct a as [|x a]; [reflexivity|].
  destruct i as [|i]; [reflexivity|]. cbn. apply IH. lia.
Qed.
End ArrayFacts.

Lemma for_up_succ {St : Type} (lo n : nat) (body : nat -> St -> St) (s : St) :
  for_up lo (n + 1) body s = body (lo + n)%nat (for_up lo n body s).
Proof.
  unfold for_up. rewrite Nat.add_1_r, seq_S, fold_left_app. reflexivity.
Qed.

Lemma for_down_succ {St : Type} (n : nat) (body : nat -> St -> St) (s : St) :
  for_down (n + 1) body s = for_down n body (body n s).
Proof.
  unfold for_down. rewrite Nat.add_1_r, seq_S, rev_app_distr. reflexivity.
Qed.

Section LoopFacts.
Context {num : Type} `{JSNum num}.

(** Writing [f i] at index [i] for [i] from the current length on appends. *)
Lemma fill_appends (f : nat -> num) (n : nat) (a : list num) :
  for_up (List.length a) n (fun i a => arr_set a i (f i)) a
  = a ++ map f (seq (List.length a) n).
Proof.
  induction n as [|n IH].
  - cbn. now rewrite app_nil_r.
  - rewrite <- Nat.add_1_r, for_up_succ, IH.
    replace (List.length a + n)%nat
      with (List.length (a ++ map f (seq (List.length a) n)))
      by (rewrite length_app, length_map, length_seq; reflexivity).
    rewrite arr_set_end, length_app, length_map, length_seq.
    rewrite Nat.add_1_r, seq_S, map_app, <- app_assoc. reflexivity.
Qed.

Lemma fill_from_empty (f : nat -> num) (n : nat) :
  for_up 0 n (fun i a => arr_set a i (f i)) [] = map f (seq 0 n).
Proof. exact (fill_appends f n []). Qed.

(** After [k] iterations of the inner loop the first [k] nodes hold their
    new values, computed from the old array, and the rest is untouched. *)
Lemma sweep_prefix (disc p : num) (a : list num) (k : nat) :
  (k <= List.length a)%nat ->
  for_up 0 k
    (fun i optionPrices =>
       arr_set optionPrices i
         (num_mul disc
            (num_add (num_mul p (arr_get optionPrices i))
               (num_mul (num_sub (ofZ 1) p) (arr_get optionPrices (i + 1))))))
    a
  = map (node disc p a) (seq 0 k) ++ skipn k a.
Proof.
  induction k as [|k IH]; intros Hk; [reflexivity|].
  rewrite <- Nat.add_1_r, for_up_succ, IH by lia. cbn [Nat.add].
  set (done := map (node disc p a) (seq 0 k)).
  assert (Hd : List.length done = k)
    by (unfold done; now rewrite length_map, length_seq).
  assert (Hget : forall i, arr_get (done ++ skipn k a) (k + i) = arr_get a (k + i)).
  { intros i. pose proof (arr_get_app_r done (skipn k a) i) as E.
    rewrite Hd in E. rewrite E. apply arr_get_skipn. }
  pose proof (Hget 0%nat) as E0. rewrite Nat.add_0_r in E0.
  rewrite E0, (Hget 1%nat).
  change (num_mul disc
            (num_add (num_mul p (arr_get a k))
               (num_mul (num_sub (ofZ 1) p) (arr_get a (k + 1)))))
    with (node disc p a k).
  unfold arr_set.
  destruct (Nat.ltb_spec k (List.length (done ++ skipn k a))) as [_|Hge].
  - rewrite firstn_app, Hd, Nat.sub_diag, firstn_O, app_nil_r.
    rewrite <- Hd at 1. rewrite firstn_all.
    rewrite skipn_app, Hd.
    rewrite (skipn_all2 done) by lia.
    replace (k + 1 - k)%nat with 1%nat by lia.
    rewrite skipn_skipn. cbn [app].
    rewrite (Nat.add_1_r k), seq_S, map_app, <- app_assoc. reflexivity.
  - rewrite length_app, Hd, length_skipn in Hge. lia.
Qed.

Lemma sweep_narrow (disc p : num) (j : nat) (a : list num) :
  (j + 1 < List.length a)%nat ->
  firstn (j + 1) (sweep disc p j a) = narrow disc p a j.
Proof.
  intros Hj. unfold sweep. rewrite sweep_prefix by lia.
  rewrite firstn_app, length_map, length_seq, Nat.sub_diag, firstn_O, app_nil_r.
  unfold narrow. apply firstn_all2. rewrite length_map, length_seq. lia.
Qed.

Lemma sweep_length (disc p : num) (j : nat) (a : list num) :
  (j + 1 < List.length a)%nat ->
  List.length (sweep disc p j a) = List.length a.
Proof.
  intros Hj. unfold sweep. rewrite sweep_prefix by lia.
  rewrite length_app, length_map, length_seq, length_skipn. lia.
Qed.

(** A step reads only the nodes [0..j+1]. *)
Lemma narrow_firstn (disc p : num) (a : list num) (j : nat) :
  narrow disc p (firstn (j + 2) a) j = narrow disc p a j.
Proof.
  unfold narrow. apply map_ext_in. intros i Hi. apply in_seq in Hi.
  unfold node. rewrite !arr_get_firstn by lia. reflexivity.
Qed.

(** The in-place loops and the narrowing steps agree on the root. *)
Lemma in_place_root (disc p : num) (k : nat) :
  forall a v : list num,
    (k < List.length a)%nat -> firstn (k + 1) a = v ->
    nth_error (for_down k (sweep disc p) a) 0
    = nth_error (fold_left (narrow disc p) (rev (seq 0 k)) v) 0.
Proof.
  induction k as [|k IH]; intros a v Hk Hv.
  - cbn. subst v. destruct a as [|x a]; [cbn in Hk; lia|reflexivity].
  - rewrite <- Nat.add_1_r, for_down_succ.
    rewrite Nat.add_1_r, seq_S, rev_app_distr. cbn [rev app fold_left Nat.add].
    apply IH.
    + rewrite sweep_length by lia. lia.
    + rewrite sweep_narrow by lia. subst v.
      replace (S k + 1)%nat with (k + 2)%nat by lia.
      symmetry. apply narrow_firstn.
Qed.

(** For a non-negative step count [binomialTree] returns the root of the
    narrowing lattice. *)
Lemma binomialTree_narrowing (S K T r sigma q : num) (N : Z) (optionType : string) :
  (0 <= N)%Z ->
  binomialTree S K T r sigma q N optionType
  = nth_error (lattice S K T r sigma q N optionType) 0.
Proof.
  intros HN. unfold binomialTree, lattice.
  replace (Z.to_nat (N + 1)) with (Z.to_nat N + 1)%nat by lia.
  rewrite fill_from_empty.
  apply in_place_root.
  - rewrite !length_map, length_seq. lia.
  - apply firstn_all2. rewrite !length_map, length_seq. lia.
Qed.

(** The narrowing ends with the root alone. *)
Lemma narrowing_length (disc p : num) (k : nat) (v : list num) :
  List.length v = (k + 1)%nat ->
  List.length (fold_left (narrow disc p) (rev (seq 0 k)) v) = 1%nat.
Proof.
  revert v. induction k as [|k IH]; intros v Hv; [exact Hv|].
  rewrite seq_S, rev_app_distr. cbn [rev app fold_left Nat.add].
  apply IH. unfold narrow. now rewrite length_map, length_seq.
Qed.

Lemma lattice_length (S K T r sigma q : num) (N : Z) (optionType : string) :
  List.length (lattice S K T r sigma q N optionType) = 1%nat.
Proof.
  unfold lattice. apply narrowing_length.
  now rewrite !length_map, length_seq.
Qed.
End LoopFacts.

(** ** Exact arithmetic: the engine's numbers as reals *)

Section RealFacts.
Local Open Scope R_scope.

Lemma ofZ_R (z : Z) : @ofZ R RNum z = IZR z.
Proof. unfold ofZ. cbn. unfold Q2R. cbn. field. Qed.

Lemma ofnat_R (n : nat) : @ofnat R RNum n = INR n.
Proof. unfold ofnat. rewrite ofZ_R. symmetry. apply INR_IZR_INZ. Qed.

Lemma lit_one : Q2R 1.0 = 1.
Proof. unfold Q2R. cbn. field. Qed.

Lemma lit_two : Q2R 2.0 = 2.
Proof. unfold Q2R. cbn. field. Qed.

Lemma fold_left_ext {A B : Type} (f g : A -> B -> A) (l : list B) (a : A) :
  (forall x y, f x y = g x y) -> fold_left f l a = fold_left g l a.
Proof.
  intros E. revert a. induction l as [|b l IH]; intros a; [reflexivity|].
  cbn. rewrite E. apply IH.
Qed.

Lemma payoff_side (side : OptionSide) (K price : R) :
  payoff (side_name side) K price = Spec.terminal_payoff K side price.
Proof. unfold payoff. rewrite ofZ_R. destruct side; reflexivity. Qed.

(** On a positive base and an integral exponent [Math.pow] is the power. *)
Lemma terminal_power (S u d : R) (N : Z) (i : nat) :
  0 < u -> 0 < d -> (0 <= N)%Z -> (i <= Z.to_nat N)%nat ->
  terminal S u d N i = S * u ^ (Z.to_nat N - i) * d ^ i.
Proof.
  intros Hu Hd HN Hi. unfold terminal. cbn [num_mul num_sub Math_pow RNum].
  rewrite ofZ_R, !ofnat_R.
  replace (IZR N - INR i) with (INR (Z.to_nat N - i)).
  - now rewrite !Rpower_pow.
  - rewrite minus_INR by lia. rewrite (INR_IZR_INZ (Z.to_nat N)).
    rewrite Z2Nat.id by lia. reflexivity.
Qed.

Lemma dt_steps (T : R) (N : Z) :
  (0 <= N)%Z -> T / @ofZ R RNum N = Spec.dt T (Z.to_nat N).
Proof.
  intros HN. unfold Spec.dt. rewrite ofZ_R, INR_IZR_INZ, Z2Nat.id by lia.
  reflexivity.
Qed.

(** The narrowing lattice of the engine is the lattice of section 4.3. *)
Lemma lattice_spec (S K T r sigma q : R) (N : Z) (side : OptionSide) :
  (0 <= N)%Z ->
  lattice S K T r sigma q N (side_name side)
  = Spec.backward_induction T r sigma q (Z.to_nat N)
      (map (Spec.terminal_payoff K side)
         (Spec.terminal_prices S T sigma (Z.to_nat N))).
Proof.
  intros HN. unfold lattice. cbn [num_div num_sub num_mul num_neg Math_exp Math_sqrt RNum].
  rewrite dt_steps by exact HN. rewrite ofZ_R.
  fold (Spec.u T sigma (Z.to_nat N)).
  fold (Spec.d T sigma (Z.to_nat N)).
  fold (Spec.p T r sigma q (Z.to_nat N)).
  unfold Spec.backward_induction.
  assert (Hu : 0 < Spec.u T sigma (Z.to_nat N)) by apply exp_pos.
  assert (Hd : 0 < Spec.d T sigma (Z.to_nat N)).
  { unfold Spec.d. apply Rdiv_lt_0_compat; [lra|exact Hu]. }
  replace (map (payoff (side_name side) K)
             (map (terminal S (Spec.u T sigma (Z.to_nat N))
                     (Spec.d T sigma (Z.to_nat N)) N)
                (seq 0 (Z.to_nat N + 1))))
    with (map (Spec.terminal_payoff K side)
            (Spec.terminal_prices S T sigma (Z.to_nat N))).
  - apply fold_left_ext. intros value j. unfold narrow, Spec.step.
    apply map_ext. intros i. unfold node, arr_get.
    cbn [num_mul num_add num_sub num_nan RNum]. rewrite ofZ_R.
    replace (- r * Spec.dt T (Z.to_nat N)) with (- (r * Spec.dt T (Z.to_nat N)))
      by ring.
    reflexivity.
  - unfold Spec.terminal_prices. rewrite !map_map.
    apply map_ext_in. intros i Hi. apply in_seq in Hi.
    rewrite payoff_side. f_equal. symmetry.
    apply terminal_power; [exact Hu|exact Hd|exact HN|lia].
Qed.

Lemma nth_error_root (l : list R) :
  List.length l = 1%nat -> nth_error l 0 = Some (nth 0 l 0).
Proof.
  destruct l as [|x l]; [discriminate|reflexivity].
Qed.

(** [binomialTree] on the reals, for a non-negative step count. *)
Lemma binomialTree_spec (S K T r sigma q : R) (N : Z) (side : OptionSide) :
  (0 <= N)%Z ->
  binomialTree S K T r sigma q N (side_name side)
  = Some (Spec.lattice_price S K T r sigma q (Z.to_nat N) side).
Proof.
  intros HN. rewrite binomialTree_narrowing by exact HN.
  rewrite nth_error_root by apply lattice_length.
  rewrite lattice_spec by exact HN. reflexivity.
Qed.
End RealFacts.

(** ** The analytic pricer *)

Section Analytic.
Local Open Scope R_scope.
Variable erf : R -> R.

Lemma blackScholes_d1 (S K T r sigma q : R) :
  (ln (S / K) + (r - q + 0.5 * sigma * sigma) * T) / (sigma * R_sqrt.sqrt T)
  = Spec.d1 S K T r sigma q.
Proof. unfold Spec.d1. f_equal. ring. Qed.

Lemma blackScholes_unfold (S K T r sigma q : R) :
  blackScholes erf S K T r sigma q
  = (Spec.call (normalCdf erf) S K T r sigma q,
     Spec.put (normalCdf erf) S K T r sigma q).
Proof.
  unfold blackScholes, Spec.call, Spec.put, Spec.d2.
  cbn [num_add num_sub num_mul num_div num_neg num_lit
       Math_sqrt Math_exp Math_log RNum].
  rewrite blackScholes_d1.
  replace (- q * T) with (- (q * T)) by ring.
  replace (- r * T) with (- (r * T)) by ring.
  reflexivity.
Qed.

Lemma normalCdf_unfold (x : R) :
  normalCdf erf x = (1 + erf (x / R_sqrt.sqrt 2)) / 2.
Proof.
  unfold normalCdf. cbn [num_add num_div num_lit Math_sqrt RNum].
  now rewrite lit_one, lit_two.
Qed.

(** For an odd [erf] the two tails of the distribution add up to one. *)
Lemma normalCdf_opp (x : R) :
  (forall y, erf (- y) = - erf y) ->
  normalCdf erf (- x) = 1 - normalCdf erf x.
Proof.
  intros Hodd. rewrite !normalCdf_unfold.
  replace (- x / R_sqrt.sqrt 2) with (- (x / R_sqrt.sqrt 2))
    by (unfold Rdiv; ring).
  rewrite Hodd. lra.
Qed.
End Analytic.

Lemma softsign_odd (y : R) : softsign (- y) = (- softsign y)%R.
Proof. unfold softsign. rewrite Rabs_Ropp. unfold Rdiv. ring. Qed.

Lemma softsign_bounded (y : R) : (-1 <= softsign y <= 1)%R.
Proof.
  unfold softsign.
  assert (Ha : (0 <= Rabs y)%R) by apply Rabs_pos.
  assert (Hy : (- Rabs y <= y <= Rabs y)%R).
  { split; [|apply Rle_abs]. rewrite <- (Ropp_involutive y) at 2.
    apply Ropp_le_contravar. rewrite <- Rabs_Ropp. apply Rle_abs. }
  assert (Hp : (0 < 1 + Rabs y)%R) by lra.
  split.
  - apply Rmult_le_reg_r with (1 + Rabs y)%R; [exact Hp|].
    unfold Rdiv. rewrite Rmult_assoc, Rinv_l by lra. lra.
  - apply Rmult_le_reg_r with (1 + Rabs y)%R; [exact Hp|].
    unfold Rdiv. rewrite Rmult_assoc, Rinv_l by lra. lra.
Qed.

(** C1. For S > 0, K > 0, T > 0 and sigma > 0, [blackScholes] returns the
    pair (call, put) of the closed form of section 4.2, with d1 and d2 as
    given there and Phi = [normalCdf]. *)
Theorem blackScholes_closed_form (erf : R -> R) (S K T r sigma q : R) :
  (0 < S)%R -> (0 < K)%R -> (0 < T)%R -> (0 < sigma)%R ->
  blackScholes erf S K T r sigma q
  = (Spec.call (normalCdf erf) S K T r sigma q,
     Spec.put (normalCdf erf) S K T r sigma q).
Proof. intros _ _ _ _. apply blackScholes_unfold. Qed.

Lemma blackScholes_closed_form_witness :
  (blackScholes softsign 100 95 1 0.05 0.2 0
   = (Spec.call (normalCdf softsign) 100 95 1 0.05 0.2 0,
      Spec.put (normalCdf softsign) 100 95 1 0.05 0.2 0))%R.
Proof. apply blackScholes_closed_form; lra. Defined.

(** C5. For S > 0, K > 0, T > 0 and sigma > 0 the prices of [blackScholes]
    satisfy put-call parity, call - put = S e^(-qT) - K e^(-rT), in exact
    arithmetic and for an odd [erf]. *)
Theorem put_call_parity (erf : R -> R) (S K T r sigma q : R) :
  (forall y, erf (- y) = - erf y)%R ->
  (0 < S)%R -> (0 < K)%R -> (0 < T)%R -> (0 < sigma)%R ->
  (fst (blackScholes erf S K T r sigma q) - snd (blackScholes erf S K T r sigma q)
   = S * exp (- (q * T)) - K * exp (- (r * T)))%R.
Proof.
  intros Hodd _ _ _ _. rewrite blackScholes_unfold. cbn [fst snd].
  unfold Spec.call, Spec.put. rewrite !normalCdf_opp by exact Hodd. ring.
Qed.

Lemma put_call_parity_witness :
  (fst (blackScholes softsign 100 95 1 0.05 0.2 0)
   - snd (blackScholes softsign 100 95 1 0.05 0.2 0)
   = 100 * exp (- (0 * 1)) - 95 * exp (- (0.05 * 1)))%R.
Proof. apply put_call_parity; [exact softsign_odd|lra..]. Defined.

(** C8. [normalCdf x] is (1 + erf(x / sqrt 2)) / 2, and lies in [0, 1] as
    [erf] lies in [-1, 1]. *)
Theorem normalCdf_range (erf : R -> R) (x : R) :
  (forall y, -1 <= erf y <= 1)%R ->
  (normalCdf erf x = (1 + erf (x / R_sqrt.sqrt 2)) / 2
   /\ 0 <= normalCdf erf x <= 1)%R.
Proof.
  intros Hb. rewrite normalCdf_unfold. split; [reflexivity|].
  specialize (Hb (x / R_sqrt.sqrt 2)%R). lra.
Qed.

Lemma normalCdf_range_witness :
  (normalCdf softsign 1 = (1 + softsign (1 / R_sqrt.sqrt 2)) / 2
   /\ 0 <= normalCdf softsign 1 <= 1)%R.
Proof. apply normalCdf_range. exact softsign_bounded. Defined.

(** ** The lattice pricer *)

(** C2. For S > 0, K > 0, T > 0, sigma > 0 and an integer N >= 1,
    [binomialTree] returns the root of the lattice of section 4.3: dt, u, d
    and p as given there, the N+1 terminal prices S u^(N-i) d^i, the payoff
    of the side, and the backward induction for j = N-1 down to 0 that
    narrows the array by one node per step. *)
Theorem binomialTree_lattice (S K T r sigma q : R) (N : Z) (side : OptionSide) :
  (0 < S)%R -> (0 < K)%R -> (0 < T)%R -> (0 < sigma)%R -> (1 <= N)%Z ->
  binomialTree S K T r sigma q N (side_name side)
  = Some (Spec.lattice_price S K T r sigma q (Z.to_nat N) side).
Proof. intros _ _ _ _ HN. apply binomialTree_spec. lia. Qed.

Lemma binomialTree_lattice_witness :
  binomialTree 100%R 95%R 1%R 0.05%R 0.2%R 0%R 3 (side_name Put)
  = Some (Spec.lattice_price 100 95 1 0.05 0.2 0 (Z.to_nat 3) Put).
Proof. apply binomialTree_lattice; [lra..|lia]. Defined.

(** C10. [binomialTree] selects the call payoff max(0, price - K) for the
    string "call" alone: for a step count N >= 0 its result for "call" is
    the root of the lattice whose terminal values are max(0, price - K), and
    its result for every other string is the root of the lattice whose
    terminal values are max(0, K - price).  For N < 0 no payoff is taken and
    the result is undefined.  For every step count the run with another
    string completes normally, with exactly the result of the run with
    "put". *)
Theorem binomialTree_other_strings {num : Type} {HN : JSNum num}
    (S K T r sigma q : num) (N : Z) (optionType : string) :
  optionType <> "call"%string ->
  ((0 <= N)%Z ->
   binomialTree S K T r sigma q N "call"
   = nth_error
       (lattice_of_payoff (fun price => Math_max (ofZ 0) (num_sub price K))
          S T r sigma q N) 0
   /\ binomialTree S K T r sigma q N optionType
      = nth_error
          (lattice_of_payoff (fun price => Math_max (ofZ 0) (num_sub K price))
             S T r sigma q N) 0)
  /\ ((N < 0)%Z -> binomialTree S K T r sigma q N optionType = None)
  /\ (forall price, payoff "call" K price = Math_max (ofZ 0) (num_sub price K))
  /\ (forall price, payoff optionType K price = Math_max (ofZ 0) (num_sub K price))
  /\ binomialTree_run S K T r sigma q N optionType
     = Normal (binomialTree S K T r sigma q N "put").
Proof.
  intros Hne.
  assert (E : String.eqb optionType "call" = false)
    by (apply String.eqb_neq; exact Hne).
  split; [|split; [|split; [reflexivity|split]]].
  - intros HN0. split.
    + rewrite binomialTree_narrowing by exact HN0. reflexivity.
    + rewrite binomialTree_narrowing by exact HN0.
      unfold lattice, lattice_of_payoff. do 2 f_equal.
      apply map_ext. intros price. unfold payoff. now rewrite E.
  - intros Hneg. unfold binomialTree.
    replace (Z.to_nat (N + 1)) with 0%nat by lia.
    replace (Z.to_nat N) with 0%nat by lia. reflexivity.
  - intros price. unfold payoff. now rewrite E.
  - unfold binomialTree_run, binomialTree. f_equal. f_equal. f_equal.
    apply map_ext. intros price. unfold payoff. now rewrite E.
Qed.

Lemma binomialTree_other_strings_witness :
  ((0 <= 3)%Z ->
   binomialTree 100%R 95%R 1%R 0.05%R 0.2%R 0%R 3 "call"
   = nth_error
       (lattice_of_payoff (fun price : R => Math_max (ofZ 0) (num_sub price 95%R))
          100%R 1%R 0.05%R 0.2%R 0%R 3) 0
   /\ binomialTree 100%R 95%R 1%R 0.05%R 0.2%R 0%R 3 "Call"
      = nth_error
          (lattice_of_payoff (fun price : R => Math_max (ofZ 0) (num_sub 95%R price))
             100%R 1%R 0.05%R 0.2%R 0%R 3) 0)
  /\ ((3 < 0)%Z -> binomialTree 100%R 95%R 1%R 0.05%R 0.2%R 0%R 3 "Call" = None)
  /\ (forall price : R, payoff "call" 95%R price = Math_max (ofZ 0) (num_sub price 95%R))
  /\ (forall price : R, payoff "Call" 95%R price = Math_max (ofZ 0) (num_sub 95%R price))
  /\ binomialTree_run 100%R 95%R 1%R 0.05%R 0.2%R 0%R 3 "Call"
     = Normal (binomialTree 100%R 95%R 1%R 0.05%R 0.2%R 0%R 3 "put").
Proof. apply binomialTree_other_strings. discriminate. Defined.

(** ** The grid *)

Lemma for_up_ext {St : Type} (lo n : nat) (body body' : nat -> St -> St) (s : St) :
  (forall i st, body i st = body' i st) ->
  for_up lo n body s = for_up lo n body' s.
Proof.
  intros E. unfold for_up. apply fold_left_ext. intros st i. apply E.
Qed.

(** A loop that pushes one element per iteration onto each of two arrays. *)
Lemma push_loop {A : Type} (f g : nat -> A) (n : nat) (a b : list A) :
  for_up 0 n (fun j rows => let '(x, y) := rows in (x ++ [f j], y ++ [g j])) (a, b)
  = (a ++ map f (seq 0 n), b ++ map g (seq 0 n)).
Proof.
  induction n as [|n IH].
  - cbn. now rewrite !app_nil_r.
  - rewrite <- Nat.add_1_r, for_up_succ, IH. cbn [Nat.add].
    rewrite Nat.add_1_r, seq_S, !map_app, <- !app_assoc. reflexivity.
Qed.

Lemma entry_map {A : Type} (f : nat -> nat -> A) (rows cols i j : nat) :
  (i < rows)%nat -> (j < cols)%nat ->
  entry (map (fun i => map (f i) (seq 0 cols)) (seq 0 rows)) i j = Some (f i j).
Proof.
  intros Hi Hj. unfold entry.
  rewrite nth_error_map, nth_error_nth' with (d := 0%nat)
    by (rewrite length_seq; exact Hi).
  rewrite seq_nth by exact Hi. cbn [option_map Nat.add].
  rewrite nth_error_map, nth_error_nth' with (d := 0%nat)
    by (rewrite length_seq; exact Hj).
  rewrite seq_nth by exact Hj. reflexivity.
Qed.

Section Grid.
Context {num : Type} `{JSNum num}.

Lemma arr_get_nth_error (a : list num) (i : nat) (x : num) :
  nth_error a i = Some x -> arr_get a i = x.
Proof. intros E. unfold arr_get. now apply nth_error_nth. Qed.

(** A grid built cell by cell from the point computation is the grid of
    section 8. *)
Lemma grid_of_cells {A : Type} (point : num -> num -> option (A * A))
    (cellPrices : nat -> nat -> A * A) (strikePrices volatilities : list num) :
  (forall i j, point (arr_get strikePrices j) (arr_get volatilities i)
               = Some (cellPrices i j)) ->
  grid_of_points point strikePrices volatilities
    (map (fun i => map (fun j => fst (cellPrices i j)) (seq 0 (List.length strikePrices)))
       (seq 0 (List.length volatilities)),
     map (fun i => map (fun j => snd (cellPrices i j)) (seq 0 (List.length strikePrices)))
       (seq 0 (List.length volatilities))).
Proof.
  intros Hpoint. unfold grid_of_points. cbn [fst snd].
  rewrite !length_map, !length_seq.
  split; [reflexivity|]. split; [reflexivity|].
  split; [|split].
  - apply Forall_forall. intros row Hrow. apply in_map_iff in Hrow.
    destruct Hrow as (i & <- & _). now rewrite length_map, length_seq.
  - apply Forall_forall. intros row Hrow. apply in_map_iff in Hrow.
    destruct Hrow as (i & <- & _). now rewrite length_map, length_seq.
  - intros i j vol K Hvol HK.
    assert (Hi : (i < List.length volatilities)%nat)
      by (apply nth_error_Some; congruence).
    assert (Hj : (j < List.length strikePrices)%nat)
      by (apply nth_error_Some; congruence).
    exists (fst (cellPrices i j)), (snd (cellPrices i j)).
    rewrite <- (arr_get_nth_error _ _ Hvol), <- (arr_get_nth_error _ _ HK).
    rewrite Hpoint, <- surjective_pairing.
    split; [reflexivity|].
    split.
    + exact (entry_map (fun i j => fst (cellPrices i j)) Hi Hj).
    + exact (entry_map (fun i j => snd (cellPrices i j)) Hi Hj).
Qed.

(** The two nested loops of [generateHeatmapData], when each cell pushes. *)
Lemma grid_loops {A : Type} (cell : nat -> nat -> list A * list A -> list A * list A)
    (cellPrices : nat -> nat -> A * A) (rows cols : nat) :
  (forall i j callRow putRow,
      cell i j (callRow, putRow)
      = (callRow ++ [fst (cellPrices i j)], putRow ++ [snd (cellPrices i j)])) ->
  for_up 0 rows
    (fun i data =>
       let '(callData, putData) := data in
       let '(callRow, putRow) := for_up 0 cols (cell i) ([], []) in
       (callData ++ [callRow], putData ++ [putRow]))
    ([], [])
  = (map (fun i => map (fun j => fst (cellPrices i j)) (seq 0 cols)) (seq 0 rows),
     map (fun i => map (fun j => snd (cellPrices i j)) (seq 0 cols)) (seq 0 rows)).
Proof.
  intros Hcell.
  etransitivity;
    [|exact (push_loop (fun i => map (fun j => fst (cellPrices i j)) (seq 0 cols))
                       (fun i => map (fun j => snd (cellPrices i j)) (seq 0 cols))
                       rows [] [])].
  apply for_up_ext. intros i [callData putData].
  rewrite for_up_ext
    with (body' := fun j rows => let '(x, y) := rows in
                     (x ++ [fst (cellPrices i j)], y ++ [snd (cellPrices i j)])).
  - rewrite push_loop. reflexivity.
  - intros j [callRow putRow]. apply Hcell.
Qed.
End Grid.

Section GridEntries.
Context {num : Type} `{JSNum num}.
Variable erf : num -> num.
Variables (model : string) (inputs : Inputs num).
Variables strikePrices volatilities : list num.
Hypothesis known_model :
  model = "Black-Scholes"%string \/ model = "Binomial Tree"%string.

Lemma known_model_cases :
  String.eqb model "Black-Scholes" = true
  \/ (String.eqb model "Black-Scholes" = false
      /\ String.eqb model "Binomial Tree" = true).
Proof.
  destruct known_model as [-> | ->]; [left|right; split]; reflexivity.
Qed.

Lemma V2_point_runs (K vol : num) :
  V2.computeResults erf model (at_point inputs K vol)
  = Some (results_or num_nan (V2.computeResults erf model (at_point inputs K vol))).
Proof.
  unfold V2.computeResults.
  destruct known_model_cases as [E | [E1 E2]].
  - rewrite E. destruct (blackScholes _ _ _ _ _ _ _). reflexivity.
  - rewrite E1, E2. reflexivity.
Qed.

Lemma V2_cell_pushes (i j : nat) (callRow putRow : list num) :
  V2.cell erf model inputs strikePrices volatilities i j (callRow, putRow)
  = (callRow ++ [fst (V2_cellPrices erf model inputs strikePrices volatilities i j)], putRow ++ [snd (V2_cellPrices erf model inputs strikePrices volatilities i j)]).
Proof.
  unfold V2.cell, V2_cellPrices, V2.computeResults, at_point.
  cbn [in_S in_K_specific in_T in_r in_sigma in_q in_N].
  destruct known_model_cases as [E | [E1 E2]].
  - rewrite E. destruct (blackScholes _ _ _ _ _ _ _). reflexivity.
  - rewrite E1, E2. reflexivity.
Qed.

Lemma V2_grid :
  grid_of_points
    (fun K vol => V2.computeResults erf model (at_point inputs K vol))
    strikePrices volatilities
    (V2.generateHeatmapData erf model inputs strikePrices volatilities).
Proof.
  unfold V2.generateHeatmapData.
  rewrite (grid_loops _ (V2_cellPrices erf model inputs strikePrices volatilities)) by (intros; apply V2_cell_pushes).
  apply grid_of_cells. intros i j. apply V2_point_runs.
Qed.

Lemma V1_point_runs (K vol : num) :
  V1.computeResults erf model (at_point inputs K vol)
  = Some (results_or None (V1.computeResults erf model (at_point inputs K vol))).
Proof.
  unfold V1.computeResults.
  destruct known_model_cases as [E | [E1 E2]].
  - rewrite E. destruct (blackScholes _ _ _ _ _ _ _). reflexivity.
  - rewrite E1, E2. reflexivity.
Qed.

Lemma V1_cell_pushes (i j : nat) (callRow putRow : list (option num)) :
  V1.cell erf model inputs strikePrices volatilities i j (callRow, putRow)
  = (callRow ++ [fst (V1_cellPrices erf model inputs strikePrices volatilities i j)], putRow ++ [snd (V1_cellPrices erf model inputs strikePrices volatilities i j)]).
Proof.
  unfold V1.cell, V1_cellPrices, V1.computeResults, at_point.
  cbn [in_S in_K_specific in_T in_r in_sigma in_q in_N].
  destruct known_model_cases as [E | [E1 E2]].
  - rewrite E. destruct (blackScholes _ _ _ _ _ _ _). reflexivity.
  - rewrite E1, E2. reflexivity.
Qed.

Lemma V1_grid :
  grid_of_points
    (fun K vol => V1.computeResults erf model (at_point inputs K vol))
    strikePrices volatilities
    (V1.generateHeatmapData erf model inputs strikePrices volatilities).
Proof.
  unfold V1.generateHeatmapData.
  rewrite (grid_loops _ (V1_cellPrices erf model inputs strikePrices volatilities)) by (intros; apply V1_cell_pushes).
  apply grid_of_cells. intros i j. apply V1_point_runs.
Qed.
End GridEntries.

(** C7. For the models "Black-Scholes" and "Binomial Tree" and any strike
    and volatility lists, [generateHeatmapData] returns a call and a put
    matrix with one row per volatility and one column per strike, whose
    entry [i][j] is the price the point computation of [Home] yields at
    strike [strikePrices[j]] and volatility [volatilities[i]], call and put
    side respectively; in either draft. *)
Theorem generateHeatmapData_grid {num : Type} {HN : JSNum num} (erf : num -> num)
    (model : string) (inputs : Inputs num) (strikePrices volatilities : list num) :
  model = "Black-Scholes"%string \/ model = "Binomial Tree"%string ->
  grid_of_points
    (fun K vol => V2.computeResults erf model (at_point inputs K vol))
    strikePrices volatilities
    (V2.generateHeatmapData erf model inputs strikePrices volatilities)
  /\ grid_of_points
       (fun K vol => V1.computeResults erf model (at_point inputs K vol))
       strikePrices volatilities
       (V1.generateHeatmapData erf model inputs strikePrices volatilities).
Proof.
  intros Hmodel. split.
  - now apply V2_grid.
  - now apply V1_grid.
Qed.

Lemma generateHeatmapData_grid_witness :
  grid_of_points
    (fun K vol => V2.computeResults softsign "Binomial Tree" (at_point default_inputs K vol))
    [80%R; 100%R; 120%R] [0.3%R; 0.2%R]
    (V2.generateHeatmapData softsign "Binomial Tree" default_inputs
       [80%R; 100%R; 120%R] [0.3%R; 0.2%R])
  /\ grid_of_points
       (fun K vol => V1.computeResults softsign "Binomial Tree" (at_point default_inputs K vol))
       [80%R; 100%R; 120%R] [0.3%R; 0.2%R]
       (V1.generateHeatmapData softsign "Binomial Tree" default_inputs
          [80%R; 100%R; 120%R] [0.3%R; 0.2%R]).
Proof. apply generateHeatmapData_grid. right. reflexivity. Defined.

(** ** The strike axis *)

Section StrikeAxis.
Local Open Scope R_scope.

(** [toFixed(2)] moves a number by at most half a cent. *)
Lemma R_toFixed2_near (x : R) : Rabs (R_toFixed2 x - x) <= 0.005.
Proof.
  unfold R_toFixed2.
  destruct (Rlt_dec x 0) as [Hneg|Hpos].
  - destruct (Rle_dec (10 ^ 21) (- x)) as [_|_].
    + replace (- - x - x) with 0 by ring. rewrite Rabs_R0. lra.
    + pose proof (Zfloor_bound (- x * 100 + / 2)) as [Hlo Hhi].
      apply Rabs_le. lra.
  - destruct (Rle_dec (10 ^ 21) x) as [_|_].
    + replace (x - x) with 0 by ring. rewrite Rabs_R0. lra.
    + pose proof (Zfloor_bound (x * 100 + / 2)) as [Hlo Hhi].
      apply Rabs_le. lra.
Qed.

(** A whole number of cents is printed as it is. *)
Lemma R_toFixed2_cents (n : Z) : R_toFixed2 (IZR n / 100) = IZR n / 100.
Proof.
  unfold R_toFixed2.
  destruct (Rlt_dec (IZR n / 100) 0) as [Hneg|Hpos].
  - destruct (Rle_dec (10 ^ 21) (- (IZR n / 100))) as [_|_]; [ring|].
    replace (- (IZR n / 100) * 100 + / 2) with (IZR (- n) + / 2)
      by (rewrite opp_IZR; field).
    rewrite (Zfloor_eq (- n)) by lra. rewrite opp_IZR. field.
  - destruct (Rle_dec (10 ^ 21) (IZR n / 100)) as [_|_]; [reflexivity|].
    replace (IZR n / 100 * 100 + / 2) with (IZR n + / 2) by field.
    rewrite (Zfloor_eq n) by lra. reflexivity.
Qed.

Lemma nth_map_seq {A : Type} (f : nat -> A) (n j : nat) (d : A) :
  (j < n)%nat -> nth j (map f (seq 0 n)) d = f j.
Proof.
  intros Hj.
  rewrite (nth_indep _ d (f 0%nat)) by (rewrite length_map, length_seq; exact Hj).
  rewrite (map_nth f), seq_nth by exact Hj. reflexivity.
Qed.

Lemma strike_at (inputs : Inputs R) (j : nat) :
  (j < 10)%nat ->
  nth j (V2.strikePrices inputs) 0
  = R_toFixed2 (Spec.linear_strike 10 (in_K_min inputs) (in_K_max inputs) j).
Proof.
  intros Hj. unfold V2.strikePrices, Spec.linear_strike.
  rewrite nth_map_seq by exact Hj.
  cbn [num_add num_div num_mul num_sub toFixed2 RNum].
  rewrite ofnat_R, ofZ_R. f_equal.
  replace (INR 10 - 1) with 9 by (cbn; ring). reflexivity.
Qed.
End StrikeAxis.

(** ** The strike axis in binary64 *)

(** A price is a zero or a finite float. *)
Lemma is_price_finite (x : float) :
  is_price x = true ->
  (exists s, Prim2SF x = S754_zero s)
  \/ (exists s m e, Prim2SF x = S754_finite s m e).
Proof.
  unfold is_price, PrimFloat.is_nan, PrimFloat.is_infinity.
  rewrite !FloatAxioms.eqb_spec, FloatAxioms.abs_spec.
  change (Prim2SF infinity) with (S754_infinity false).
  destruct (Prim2SF x) as [s|[|]| |s m e]; cbn; try discriminate; intros _.
  - left. now exists s.
  - right. now exists s, m, e.
Qed.

(** The first step of the axis adds a zero. *)
Lemma add_idle_zero (x d : float) :
  PrimFloat.ltb 0 x = true -> is_price d = true ->
  (x + 0 * d / 9)%float = x.
Proof.
  intros Hx Hd. apply Prim2SF_inj.
  rewrite FloatAxioms.add_spec, FloatAxioms.div_spec, FloatAxioms.mul_spec.
  rewrite FloatAxioms.ltb_spec in Hx.
  change (Prim2SF 0) with (S754_zero false) in *.
  change (Prim2SF 9) with (S754_finite false 5066549580791808 (-49)).
  destruct (is_price_finite d Hd) as [[s E]|[s [m [e E]]]]; rewrite E.
  - destruct (Prim2SF x) as [sx|sx| |sx mx ex]; try discriminate.
    + destruct sx; [discriminate|]. destruct s; reflexivity.
    + destruct s; reflexivity.
  - destruct (Prim2SF x) as [sx|sx| |sx mx ex]; try discriminate.
    + destruct sx; [discriminate|]. destruct s; reflexivity.
    + destruct s; reflexivity.
Qed.

Lemma first_strike_binary64 (M : ESMath) (finputs : Inputs float) :
  PrimFloat.ltb 0 (in_K_min finputs) = true ->
  is_price (in_K_max finputs - in_K_min finputs)%float = true ->
  nth 0 (@V2.strikePrices _ (IEEE M) finputs) nan
  = es_toFixed2 M (in_K_min finputs).
Proof.
  intros Hx Hd. unfold V2.strikePrices. cbn [seq map nth].
  cbn [toFixed2 IEEE]. f_equal.
  change (@ofnat _ (IEEE M) 0) with 0%float.
  change (@ofZ _ (IEEE M) 9) with 9%float.
  cbn [num_add num_mul num_div num_sub IEEE].
  now apply add_idle_zero.
Qed.

(** The runs of the axis on the runtime that prints as the standard says:
    80..120 gives 84.44 for the second strike, and 0.1..0.325 ends at 0.32
    although 0.325 itself prints as 0.33. *)
Lemma strike_axis_runs :
  @V2.strikePrices _ (IEEE printing_math) default_finputs
  = map float_lit [80; 84.44; 88.89; 93.33; 97.78; 102.22; 106.67; 111.11; 115.56; 120]
  /\ @V2.strikePrices _ (IEEE printing_math) narrow_range_finputs
     = map float_lit [0.1; 0.13; 0.15; 0.18; 0.2; 0.23; 0.25; 0.28; 0.3; 0.32]
  /\ float_toFixed2 (in_K_max narrow_range_finputs) = float_lit 0.33.
Proof. vm_compute. repeat split. Qed.

(** C9, as the code has it. The strike axis has 10 values, in either
    draft; the j-th is the number min + j (max - min) / 9 the engine
    computes, printed with two decimals and read back.  In binary64 the
    first value is min rounded to two decimals, for a positive min and a
    finite range, while the last need not be max rounded to two decimals:
    the range 0.1..0.325 ends at 0.32, and 0.325 prints as 0.33.  In exact
    arithmetic every value is within half a cent of the linearly spaced one,
    the first of min and the last of max. *)
Theorem strike_axis_rounded (M : ESMath) (finputs : Inputs float)
    (inputs : Inputs R) (j : nat) :
  (j < 10)%nat ->
  @V1.strikePrices _ (IEEE M) finputs = @V2.strikePrices _ (IEEE M) finputs
  /\ List.length (@V2.strikePrices _ (IEEE M) finputs) = 10%nat
  /\ nth j (@V2.strikePrices _ (IEEE M) finputs) nan
     = es_toFixed2 M
         (in_K_min finputs
          + @ofnat _ (IEEE M) j * (in_K_max finputs - in_K_min finputs) / 9)%float
  /\ (PrimFloat.ltb 0 (in_K_min finputs) = true ->
      is_price (in_K_max finputs - in_K_min finputs)%float = true ->
      nth 0 (@V2.strikePrices _ (IEEE M) finputs) nan
      = es_toFixed2 M (in_K_min finputs))
  /\ nth 9 (@V2.strikePrices _ (IEEE printing_math) narrow_range_finputs) nan
     = float_lit 0.32
  /\ float_toFixed2 (in_K_max narrow_range_finputs) = float_lit 0.33
  /\ V1.strikePrices inputs = V2.strikePrices inputs
  /\ List.length (V2.strikePrices inputs) = 10%nat
  /\ (Rabs (nth j (V2.strikePrices inputs) 0
            - Spec.linear_strike 10 (in_K_min inputs) (in_K_max inputs) j)
      <= 0.005)%R
  /\ (Rabs (nth 0 (V2.strikePrices inputs) 0 - in_K_min inputs) <= 0.005)%R
  /\ (Rabs (nth 9 (V2.strikePrices inputs) 0 - in_K_max inputs) <= 0.005)%R.
Proof.
  intros Hj. split; [reflexivity|]. split; [reflexivity|]. split.
  { unfold V2.strikePrices. rewrite nth_map_seq by exact Hj. reflexivity. }
  split; [apply first_strike_binary64|].
  destruct strike_axis_runs as [_ [Hrun Hmax]].
  split; [rewrite Hrun; reflexivity|]. split; [exact Hmax|].
  split; [reflexivity|]. split; [reflexivity|].
  split; [rewrite strike_at by exact Hj; apply R_toFixed2_near|].
  split.
  - rewrite strike_at by lia.
    replace (in_K_min inputs)
      with (Spec.linear_strike 10 (in_K_min inputs) (in_K_max inputs) 0) at 2
      by (unfold Spec.linear_strike; cbn; field).
    apply R_toFixed2_near.
  - rewrite strike_at by lia.
    replace (in_K_max inputs)
      with (Spec.linear_strike 10 (in_K_min inputs) (in_K_max inputs) 9) at 2
      by (unfold Spec.linear_strike; cbn; field).
    apply R_toFixed2_near.
Qed.

Lemma strike_axis_rounded_witness :
  @V1.strikePrices _ (IEEE printing_math) default_finputs
  = @V2.strikePrices _ (IEEE printing_math) default_finputs
  /\ List.length (@V2.strikePrices _ (IEEE printing_math) default_finputs) = 10%nat
  /\ nth 1 (@V2.strikePrices _ (IEEE printing_math) default_finputs) nan
     = es_toFixed2 printing_math
         (in_K_min default_finputs
          + @ofnat _ (IEEE printing_math) 1
            * (in_K_max default_finputs - in_K_min default_finputs) / 9)%float
  /\ (PrimFloat.ltb 0 (in_K_min default_finputs) = true ->
      is_price (in_K_max default_finputs - in_K_min default_finputs)%float = true ->
      nth 0 (@V2.strikePrices _ (IEEE printing_math) default_finputs) nan
      = es_toFixed2 printing_math (in_K_min default_finputs))
  /\ nth 9 (@V2.strikePrices _ (IEEE printing_math) narrow_range_finputs) nan
     = float_lit 0.32
  /\ float_toFixed2 (in_K_max narrow_range_finputs) = float_lit 0.33
  /\ V1.strikePrices default_inputs = V2.strikePrices default_inputs
  /\ List.length (V2.strikePrices default_inputs) = 10%nat
  /\ (Rabs (nth 1 (V2.strikePrices default_inputs) 0
            - Spec.linear_strike 10 (in_K_min default_inputs)
                (in_K_max default_inputs) 1)
      <= 0.005)%R
  /\ (Rabs (nth 0 (V2.strikePrices default_inputs) 0 - in_K_min default_inputs)
      <= 0.005)%R
  /\ (Rabs (nth 9 (V2.strikePrices default_inputs) 0 - in_K_max default_inputs)
      <= 0.005)%R.
Proof. apply (strike_axis_rounded printing_math default_finputs default_inputs). lia. Defined.

(** With the default range 80..120 the second strike is 84.44, not 760/9. *)
Lemma second_strike_default :
  nth 1 (V2.strikePrices default_inputs) 0%R = 84.44%R.
Proof.
  rewrite strike_at by lia. unfold Spec.linear_strike, default_inputs.
  cbn [in_K_min in_K_max INR].
  unfold R_toFixed2.
  destruct (Rlt_dec _ 0) as [Hneg|_]; [lra|].
  destruct (Rle_dec (10 ^ 21) _) as [Hbig|_]; [lra|].
  rewrite (Zfloor_eq 8444) by lra. lra.
Qed.

(** C9, as stated, fails: the second strike of the default range is not
    80 + 1 * (120 - 80) / (10 - 1). *)
Lemma strike_axis_not_exact :
  nth 1 (V2.strikePrices default_inputs) 0%R
  <> Spec.linear_strike 10 (in_K_min default_inputs) (in_K_max default_inputs) 1.
Proof.
  rewrite second_strike_default. unfold Spec.linear_strike, default_inputs.
  cbn [in_K_min in_K_max INR]. lra.
Qed.

(** ** Negative prices *)

Section NegativePut.
Local Open Scope R_scope.

(** One step, S = K = 1, T = 1, sigma = 1, r = 2, q = 0: the up
    probability exceeds one and the put is worth less than nothing. *)
Lemma one_step_put_value :
  Spec.lattice_price 1 1 1 2 1 0 1 Put
  = exp (- (2 * 1))
    * ((exp 2 - 1 / exp 1) / (exp 1 - 1 / exp 1) * Rmax 0 (1 - exp 1)
       + (1 - (exp 2 - 1 / exp 1) / (exp 1 - 1 / exp 1)) * Rmax 0 (1 - 1 / exp 1)).
Proof.
  assert (Hdt : Spec.dt 1 1 = 1) by (unfold Spec.dt; cbn; field).
  assert (Hu : Spec.u 1 1 1 = exp 1).
  { unfold Spec.u. rewrite Hdt, sqrt_1. f_equal. ring. }
  assert (Hd : Spec.d 1 1 1 = 1 / exp 1) by (unfold Spec.d; now rewrite Hu).
  assert (Hp : Spec.p 1 2 1 0 1 = (exp 2 - 1 / exp 1) / (exp 1 - 1 / exp 1)).
  { unfold Spec.p. rewrite Hd, Hu, Hdt. do 2 f_equal. f_equal. ring. }
  unfold Spec.lattice_price, Spec.backward_induction, Spec.terminal_prices.
  cbn [seq rev app fold_left map Nat.add Nat.sub].
  unfold Spec.step. cbn [seq map nth Nat.add].
  rewrite Hp, Hu, Hd, Hdt. unfold Spec.terminal_payoff.
  f_equal. f_equal; f_equal; f_equal; cbn [pow]; ring.
Qed.
Lemma one_step_put_negative : Spec.lattice_price 1 1 1 2 1 0 1 Put < 0.
Proof.
  rewrite one_step_put_value.
  assert (He : 2 < exp 1) by (pose proof (exp_ineq1 1); lra).
  assert (He2 : exp 1 < exp 2) by (apply exp_increasing; lra).
  assert (Hdisc : 0 < exp (- (2 * 1))) by apply exp_pos.
  assert (Hd : 0 < 1 / exp 1 < 1).
  { split.
    - apply Rdiv_lt_0_compat; lra.
    - apply Rmult_lt_reg_r with (exp 1); [lra|].
      unfold Rdiv. rewrite Rmult_assoc, Rinv_l by lra. lra. }
  set (d := 1 / exp 1) in *.
  assert (Hp : 1 < (exp 2 - d) / (exp 1 - d)).
  { apply Rmult_lt_reg_r with (exp 1 - d); [lra|].
    unfold Rdiv. rewrite Rmult_assoc, Rinv_l by lra. lra. }
  set (p := (exp 2 - d) / (exp 1 - d)) in *.
  rewrite Rmax_left by lra. rewrite Rmax_right by lra.
  assert (Hneg : (1 - p) * (1 - d) < 0) by nra.
  nra.
Qed.
End NegativePut.

(** C4, as stated, fails: with S = K = 1, T = 1, sigma = 1, r = 2, q = 0
    and one step, all valid, [binomialTree] returns a negative put. *)
Lemma binomialTree_negative_put :
  exists putPrice : R,
    binomialTree 1%R 1%R 1%R 2%R 1%R 0%R 1 "put" = Some putPrice
    /\ (putPrice < 0)%R.
Proof.
  exists (Spec.lattice_price 1 1 1 2 1 0 1 Put). split.
  - apply (binomialTree_spec 1 1 1 2 1 0 (N := 1) Put). lia.
  - exact one_step_put_negative.
Qed.

(** ** Where the second draft floors the prices *)

Lemma for_up_invariant {St : Type} (P : St -> Prop) (lo n : nat)
    (body : nat -> St -> St) (s : St) :
  P s -> (forall i st, P st -> P (body i st)) -> P (for_up lo n body s).
Proof.
  intros Hs Hbody. unfold for_up. revert s Hs.
  induction (seq lo n) as [|i l IH]; intros s Hs; [exact Hs|].
  cbn. apply IH. now apply Hbody.
Qed.

Section Floors.
Context {num : Type} `{JSNum num}.
Variable erf : num -> num.
Variable P : num -> Prop.
Hypothesis floored : forall x, P (Math_max x (ofZ 0)).

Lemma V2_point_floored (model : string) (inputs : Inputs num) (callPrice putPrice : num) :
  V2.computeResults erf model inputs = Some (callPrice, putPrice) ->
  P callPrice /\ P putPrice.
Proof.
  unfold V2.computeResults.
  destruct (String.eqb model "Black-Scholes").
  - destruct (blackScholes _ _ _ _ _ _ _). intros [= <- <-]. split; apply floored.
  - destruct (String.eqb model "Binomial Tree"); [|discriminate].
    intros [= <- <-]. split; apply floored.
Qed.

Lemma V2_cell_floored (model : string) (inputs : Inputs num)
    (strikePrices volatilities : list num) (i j : nat)
    (rows : list num * list num) :
  Forall P (fst rows) /\ Forall P (snd rows) ->
  Forall P (fst (V2.cell erf model inputs strikePrices volatilities i j rows))
  /\ Forall P (snd (V2.cell erf model inputs strikePrices volatilities i j rows)).
Proof.
  destruct rows as [callRow putRow]. cbn [fst snd]. intros [Hc Hp].
  unfold V2.cell.
  destruct (String.eqb model "Black-Scholes").
  - destruct (blackScholes _ _ _ _ _ _ _). cbn [fst snd].
    split; apply Forall_app; (split; [assumption|]);
      (constructor; [apply floored|constructor]).
  - destruct (String.eqb model "Binomial Tree"); cbn [fst snd].
    + split; apply Forall_app; (split; [assumption|]);
        (constructor; [apply floored|constructor]).
    + now split.
Qed.

Lemma V2_grid_floored (model : string) (inputs : Inputs num)
    (strikePrices volatilities : list num) :
  Forall (Forall P) (fst (V2.generateHeatmapData erf model inputs strikePrices volatilities))
  /\ Forall (Forall P) (snd (V2.generateHeatmapData erf model inputs strikePrices volatilities)).
Proof.
  unfold V2.generateHeatmapData.
  apply for_up_invariant
    with (P := fun data => Forall (Forall P) (fst data) /\ Forall (Forall P) (snd data)).
  - cbn. split; constructor.
  - intros i [callData putData]. cbn [fst snd]. intros [Hc Hp].
    pose proof (for_up_invariant
                  (fun rows => Forall P (fst rows) /\ Forall P (snd rows))
                  0 (List.length strikePrices)
                  (V2.cell erf model inputs strikePrices volatilities i) ([], [])) as Hrow.
    destruct (for_up 0 (List.length strikePrices) _ _) as [callRow putRow].
    cbn [fst snd] in *.
    destruct Hrow as [Hcr Hpr].
    + split; constructor.
    + intros j rows. apply V2_cell_floored.
    + split; apply Forall_app; (split; [assumption|]);
        (constructor; [assumption|constructor]).
Qed.
End Floors.

(** [Math.max(x, 0)] is never below zero, NaN included. *)
Lemma float_max_not_below_zero (x : float) :
  PrimFloat.ltb (float_max x 0%float) 0%float = false.
Proof.
  unfold float_max.
  destruct (PrimFloat.is_nan x); [reflexivity|]. cbn [orb].
  change (PrimFloat.is_nan 0%float) with false. cbv iota.
  destruct (x <? 0)%float eqn:E1; [reflexivity|].
  destruct (0 <? x)%float eqn:E2; [exact E1|].
  destruct (PrimFloat.classify x); first [exact E1 | reflexivity].
Qed.

(** The first draft hands the pricers' results on as they are. *)
Lemma V1_point_unfloored {num : Type} `{JSNum num} (erf : num -> num)
    (inputs : Inputs num) :
  V1.computeResults erf "Black-Scholes" inputs
  = Some (Some (fst (blackScholes erf (in_S inputs) (in_K_specific inputs)
                       (in_T inputs) (in_r inputs) (in_sigma inputs) (in_q inputs))),
          Some (snd (blackScholes erf (in_S inputs) (in_K_specific inputs)
                       (in_T inputs) (in_r inputs) (in_sigma inputs) (in_q inputs))))
  /\ V1.computeResults erf "Binomial Tree" inputs
     = Some (binomialTree (in_S inputs) (in_K_specific inputs) (in_T inputs)
               (in_r inputs) (in_sigma inputs) (in_q inputs) (in_N inputs) "call",
             binomialTree (in_S inputs) (in_K_specific inputs) (in_T inputs)
               (in_r inputs) (in_sigma inputs) (in_q inputs) (in_N inputs) "put").
Proof.
  split; [|reflexivity].
  unfold V1.computeResults. cbn [String.eqb Ascii.eqb Bool.eqb].
  now destruct (blackScholes _ _ _ _ _ _ _).
Qed.

(** At the steep drift the first draft shows the negative put, in the
    point prices and in the grid; the second draft shows zero. *)
Lemma V1_negative_put (erf : R -> R) :
  exists callPrice putPrice : R,
    (putPrice < 0)%R
    /\ V1.computeResults erf "Binomial Tree" steep_drift_inputs
       = Some (Some callPrice, Some putPrice)
    /\ V1.generateHeatmapData erf "Binomial Tree" steep_drift_inputs [1%R] [1%R]
       = ([[Some callPrice]], [[Some putPrice]])
    /\ V2.computeResults erf "Binomial Tree" steep_drift_inputs
       = Some (Rmax callPrice 0, 0%R).
Proof.
  exists (Spec.lattice_price 1 1 1 2 1 0 1 Call),
         (Spec.lattice_price 1 1 1 2 1 0 1 Put).
  pose proof (binomialTree_spec 1 1 1 2 1 0 (N := 1) Call ltac:(lia)) as Hc.
  pose proof (binomialTree_spec 1 1 1 2 1 0 (N := 1) Put ltac:(lia)) as Hp.
  change (Z.to_nat 1) with 1%nat in Hc, Hp. cbn [side_name] in Hc, Hp.
  split; [exact one_step_put_negative|]. split; [|split].
  - destruct (V1_point_unfloored erf steep_drift_inputs) as [_ E].
    rewrite E. cbn [steep_drift_inputs in_S in_K_specific in_T in_r in_sigma in_q in_N].
    now rewrite Hc, Hp.
  - unfold V1.generateHeatmapData, for_up.
    cbn [List.length seq fold_left]. unfold V1.cell.
    cbn [String.eqb Ascii.eqb Bool.eqb app arr_get nth
         steep_drift_inputs in_S in_K_specific in_T in_r in_sigma in_q in_N].
    now rewrite Hc, Hp.
  - unfold V2.computeResults.
    cbn [String.eqb Ascii.eqb Bool.eqb
         steep_drift_inputs in_S in_K_specific in_T in_r in_sigma in_q in_N].
    rewrite ofZ_R. cbn [Math_max RNum].
    rewrite (Rmax_left 1 0) by lra. rewrite Hc, Hp. cbn [toNumber].
    do 2 f_equal.
    apply Rmax_right. pose proof one_step_put_negative. lra.
Qed.

(** C4, as the code has it. The pricers return their results as computed;
    it is each call site of the second draft that floors them with
    [Math.max(x, 0)].  In binary64 the point prices and every grid entry
    are never below 0, a NaN price staying NaN; in exact arithmetic, for
    valid parameters with sigma > 0, they are at least 0.  The first draft
    floors nowhere: its point prices are the pricers' results unchanged, and
    at valid inputs with a steep drift its point and its grid show a
    negative put where the second draft shows 0. *)
Theorem V2_prices_floored (erf : R -> R) (M : ESMath) (ferf : float -> float)
    (model : string) (inputs : Inputs R) (finputs : Inputs float)
    (strikePrices volatilities : list R) (fstrikePrices fvolatilities : list float) :
  (forall callPrice putPrice,
      @V2.computeResults _ (IEEE M) ferf model finputs = Some (callPrice, putPrice) ->
      PrimFloat.ltb callPrice 0 = false /\ PrimFloat.ltb putPrice 0 = false)
  /\ Forall (Forall (fun x => PrimFloat.ltb x 0 = false))
       (fst (@V2.generateHeatmapData _ (IEEE M) ferf model finputs
               fstrikePrices fvolatilities))
  /\ Forall (Forall (fun x => PrimFloat.ltb x 0 = false))
       (snd (@V2.generateHeatmapData _ (IEEE M) ferf model finputs
               fstrikePrices fvolatilities))
  /\ ((0 < in_S inputs)%R -> (0 < in_K_specific inputs)%R ->
      (0 < in_T inputs)%R -> (0 < in_sigma inputs)%R -> (1 <= in_N inputs)%Z ->
      forall callPrice putPrice,
        V2.computeResults erf model inputs = Some (callPrice, putPrice) ->
        (0 <= callPrice)%R /\ (0 <= putPrice)%R)
  /\ ((0 < in_S inputs)%R -> (0 < in_T inputs)%R -> (1 <= in_N inputs)%Z ->
      Forall (Rlt 0) strikePrices -> Forall (Rlt 0) volatilities ->
      Forall (Forall (Rle 0))
        (fst (V2.generateHeatmapData erf model inputs strikePrices volatilities))
      /\ Forall (Forall (Rle 0))
           (snd (V2.generateHeatmapData erf model inputs strikePrices volatilities)))
  /\ V1.computeResults erf "Black-Scholes" inputs
     = Some (Some (fst (blackScholes erf (in_S inputs) (in_K_specific inputs)
                          (in_T inputs) (in_r inputs) (in_sigma inputs) (in_q inputs))),
             Some (snd (blackScholes erf (in_S inputs) (in_K_specific inputs)
                          (in_T inputs) (in_r inputs) (in_sigma inputs) (in_q inputs))))
  /\ V1.computeResults erf "Binomial Tree" inputs
     = Some (binomialTree (in_S inputs) (in_K_specific inputs) (in_T inputs)
               (in_r inputs) (in_sigma inputs) (in_q inputs) (in_N inputs) "call",
             binomialTree (in_S inputs) (in_K_specific inputs) (in_T inputs)
               (in_r inputs) (in_sigma inputs) (in_q inputs) (in_N inputs) "put")
  /\ exists callPrice putPrice : R,
       (putPrice < 0)%R
       /\ V1.computeResults erf "Binomial Tree" steep_drift_inputs
          = Some (Some callPrice, Some putPrice)
       /\ V1.generateHeatmapData erf "Binomial Tree" steep_drift_inputs [1%R] [1%R]
          = ([[Some callPrice]], [[Some putPrice]])
       /\ V2.computeResults erf "Binomial Tree" steep_drift_inputs
          = Some (Rmax callPrice 0, 0%R).
Proof.
  assert (HR : forall x : R, (0 <= Math_max x (ofZ 0))%R).
  { intros x. rewrite ofZ_R. apply Rmax_r. }
  assert (HF : forall x : float,
             PrimFloat.ltb (@Math_max _ (IEEE M) x (@ofZ _ (IEEE M) 0)) 0 = false).
  { intros x. apply float_max_not_below_zero. }
  pose proof (@V2_grid_floored _ RNum erf (Rle 0) HR model inputs
                strikePrices volatilities) as HRg.
  pose proof (@V2_grid_floored _ (IEEE M) ferf
                (fun x => PrimFloat.ltb x 0 = false) HF model finputs
                fstrikePrices fvolatilities) as [HFc HFp].
  split.
  { intros c p.
    apply (@V2_point_floored _ (IEEE M) ferf (fun x => PrimFloat.ltb x 0 = false) HF). }
  split; [exact HFc|]. split; [exact HFp|].
  split.
  { intros _ _ _ _ _ c p. apply (@V2_point_floored _ RNum erf (Rle 0) HR). }
  split; [intros _ _ _ _ _; exact HRg|].
  destruct (V1_point_unfloored erf inputs) as [Ebs Ebt].
  split; [exact Ebs|]. split; [exact Ebt|].
  exact (V1_negative_put erf).
Qed.

(** ** Invalid parameters *)

Section NoValidation.
Context {num : Type} `{JSNum num}.

Lemma binomialTree_negative_steps (S K T r sigma q : num) (N : Z) (optionType : string) :
  (N < 0)%Z -> binomialTree S K T r sigma q N optionType = None.
Proof.
  intros HN. unfold binomialTree.
  replace (Z.to_nat (N + 1)) with 0%nat by lia.
  replace (Z.to_nat N) with 0%nat by lia.
  reflexivity.
Qed.

Lemma binomialTree_returns (S K T r sigma q : num) (N : Z) (optionType : string) :
  (0 <= N)%Z -> exists price, binomialTree S K T r sigma q N optionType = Some price.
Proof.
  intros HN. rewrite binomialTree_narrowing by exact HN.
  pose proof (lattice_length S K T r sigma q N optionType) as Hlen.
  destruct (lattice S K T r sigma q N optionType) as [|price l]; [discriminate|].
  exists price. reflexivity.
Qed.

(** With no steps the lattice is its one terminal node. *)
Lemma binomialTree_zero_steps (S K T r sigma q : num) (optionType : string) :
  binomialTree S K T r sigma q 0 optionType
  = Some (payoff optionType K
            (terminal S (Math_exp (num_mul sigma (Math_sqrt (num_div T (ofZ 0)))))
               (num_div (ofZ 1)
                  (Math_exp (num_mul sigma (Math_sqrt (num_div T (ofZ 0))))))
               0 0)).
Proof. reflexivity. Qed.
End NoValidation.

(** C6, as stated, fails: with no steps, an invalid step count, the
    lattice pricer computes S - K = 5 and returns it. *)
Lemma zero_steps_priced :
  invalid_parameter 100 95 1 0.2 0
  /\ binomialTree_run 100%R 95%R 1%R 0.05%R 0.2%R 0%R 0 "call" = Normal (Some 5%R).
Proof.
  split; [right; lia|].
  unfold binomialTree_run. rewrite binomialTree_zero_steps.
  unfold payoff, terminal. cbn [String.eqb Ascii.eqb Bool.eqb].
  cbn [num_mul num_sub num_div Math_pow Math_max Math_exp Math_sqrt RNum].
  rewrite !ofZ_R, ofnat_R. cbn [INR].
  replace (0 - 0)%R with 0%R by ring.
  rewrite !Rpower_O.
  - rewrite Rmax_right by lra. do 2 f_equal. lra.
  - apply Rdiv_lt_0_compat; [lra|apply exp_pos].
  - apply exp_pos.
Qed.

(** C6, as the code has it. No call of a pricer reports an error, whatever
    the parameters: [blackScholes] returns the pair its formulas give,
    [binomialTree] returns a number when the step count is not negative and
    [undefined] when it is. *)
Theorem pricers_never_report {num : Type} {HN : JSNum num} (erf : num -> num)
    (S K T r sigma q : num) (N : Z) (optionType : string) :
  (exists prices, blackScholes_run erf S K T r sigma q = Normal prices)
  /\ ((0 <= N)%Z ->
      exists price, binomialTree_run S K T r sigma q N optionType = Normal (Some price))
  /\ ((N < 0)%Z ->
      binomialTree_run S K T r sigma q N optionType = Normal None).
Proof.
  split; [eexists; reflexivity|]. split.
  - intros H0. destruct (binomialTree_returns S K T r sigma q optionType H0) as [price E].
    exists price. unfold binomialTree_run. now rewrite E.
  - intros Hneg. unfold binomialTree_run.
    now rewrite binomialTree_negative_steps.
Qed.

(** ** Zero volatility in binary64 *)

Section NaN.
Local Open Scope float_scope.

Lemma nan_mul_l (x : float) : nan * x = nan.
Proof. apply Prim2SF_inj. rewrite mul_spec. reflexivity. Qed.

Lemma nan_mul_r (x : float) : x * nan = nan.
Proof.
  apply Prim2SF_inj. rewrite mul_spec.
  destruct (Prim2SF x); reflexivity.
Qed.

Lemma nan_add_l (x : float) : nan + x = nan.
Proof. apply Prim2SF_inj. rewrite add_spec. reflexivity. Qed.

End NaN.

Section ZeroVolatility.
Variable M : ESMath.
Local Open Scope float_scope.
Local Abbreviation F := (IEEE M).

(** At sigma = 0 the factors u and d are both 1, and with r = q the up
    probability is 0 / 0. *)
Lemma zero_volatility_p :
  let dt := @num_div _ F 1 (@ofZ _ F 1) in
  let u := @Math_exp _ F (@num_mul _ F 0 (@Math_sqrt _ F dt)) in
  let d := @num_div _ F (@ofZ _ F 1) u in
  @num_div _ F
    (@num_sub _ F (@Math_exp _ F (@num_mul _ F (@num_sub _ F 0 0) dt)) d)
    (@num_sub _ F u d)
  = nan.
Proof.
  cbv zeta. cbn [num_div num_sub num_mul Math_exp Math_sqrt IEEE].
  change (0 * sqrt (1 / @ofZ _ F 1)) with 0.
  change ((0 - 0) * (1 / @ofZ _ F 1)) with 0.
  rewrite es_exp_zero. reflexivity.
Qed.

(** One step at S, K arbitrary, T = 1, r = q = 0, sigma = 0: the root is
    NaN for either side, and nothing is thrown. *)
Lemma zero_volatility_nan (S K : float) (optionType : string) :
  @binomialTree _ (IEEE M) S K 1 0 0 0 1 optionType = Some nan.
Proof.
  rewrite binomialTree_narrowing by lia.
  unfold lattice. rewrite zero_volatility_p.
  change (Z.to_nat 1) with 1%nat.
  cbn [Nat.add seq rev app fold_left].
  unfold narrow. cbn [seq map Nat.add nth_error]. unfold node.
  cbn [num_mul num_add num_sub IEEE].
  rewrite nan_mul_l, nan_add_l, nan_mul_r. reflexivity.
Qed.

(** The limit the specification asks for at that input is 0. *)
Lemma zero_volatility_limit :
  @limit_call _ F 1 1 1 0 0 = 0 /\ @limit_put _ F 1 1 1 0 0 = 0.
Proof.
  unfold limit_call, limit_put.
  cbn [num_mul num_sub num_neg Math_exp Math_max IEEE].
  change (- (0 * 1)) with (-0). rewrite es_exp_negzero. split; reflexivity.
Qed.

(** [blackScholes] at the same input: d1 is 0 / 0, and both prices are NaN
    once [erf] maps NaN to NaN. *)
Lemma zero_volatility_blackScholes (erf : float -> float) :
  erf nan = nan ->
  @blackScholes _ F erf 1 1 1 0 0 0 = (nan, nan).
Proof.
  intros Herf. unfold blackScholes.
  cbn [num_add num_sub num_mul num_div num_neg num_lit
       Math_sqrt Math_exp Math_log IEEE].
  change (1 / 1) with 1. rewrite es_log_one.
  change ((0 + (0 - 0 + float_lit 0.5 * 0 * 0) * 1) / (0 * sqrt 1)) with nan.
  change (nan - 0 * sqrt 1) with nan. change (- nan) with nan.
  assert (Hcdf : @normalCdf _ F erf nan = nan).
  { unfold normalCdf. cbn [num_add num_div num_lit Math_sqrt IEEE].
    change (nan / sqrt (float_lit 2.0)) with nan. rewrite Herf. reflexivity. }
  rewrite Hcdf, !nan_mul_r. reflexivity.
Qed.

(** No steps, in binary64: the lattice returns S - K. *)
Lemma zero_steps_priced_binary64 :
  @binomialTree _ F 100 95 1 (float_lit 0.05) (float_lit 0.2) 0 0 "call" = Some 5.
Proof.
  rewrite binomialTree_zero_steps. unfold payoff, terminal.
  cbn [String.eqb Ascii.eqb Bool.eqb].
  cbn [num_mul num_sub Math_pow Math_max IEEE].
  change (@ofZ _ F 0 - @ofnat _ F 0) with 0.
  change (@ofnat _ F 0) with 0.
  rewrite !es_pow_zero. reflexivity.
Qed.
End ZeroVolatility.

(** The requirements on a runtime can be met. *)
Lemma ESMath_inhabited : inhabited ESMath.
Proof. exact (inhabits taylor_math). Qed.

(** C3, as stated, fails: at S = K = 1, T = 1, r = q = 0 and one step, no
    runtime and no [erf] make the pricers follow either policy; the lattice
    returns NaN. *)
Lemma zero_volatility_no_policy :
  ~ exists (M : ESMath) (erf : float -> float),
      degenerate_policy M erf 1 1 1 0 0 1.
Proof.
  intros (M & erf & Hpolicy). unfold degenerate_policy in Hpolicy.
  cbv zeta in Hpolicy.
  set (lc := @limit_call _ (IEEE M) 1%float 1%float 1%float 0%float 0%float) in Hpolicy.
  destruct Hpolicy as [(_ & Hcall & _ & Hprice & _) | (Hbs & _)].
  - unfold binomialTree_run in Hcall. rewrite zero_volatility_nan in Hcall.
    assert (Hnan : lc = nan) by congruence.
    rewrite Hnan in Hprice. discriminate Hprice.
  - discriminate Hbs.
Qed.

(** C3, as the code has it. Neither pricer looks for sigma = 0: each
    completes normally with what its general formulas give, which for the
    lattice at T = 1, r = q = 0 and one step is NaN at every spot, strike
    and side, in every runtime. *)
Theorem zero_volatility_unguarded (M : ESMath) (erf : float -> float)
    (S K T r q : float) (N : Z) (optionType : string) :
  (exists prices, @blackScholes_run _ (IEEE M) erf S K T r 0%float q = Normal prices)
  /\ (exists price,
        @binomialTree_run _ (IEEE M) S K T r 0%float q N optionType = Normal price)
  /\ @binomialTree_run _ (IEEE M) S K 1%float 0%float 0%float 0%float 1 optionType
     = Normal (Some nan).
Proof.
  split; [eexists; reflexivity|]. split; [eexists; reflexivity|].
  unfold binomialTree_run. now rewrite zero_volatility_nan.
Qed.

(** * Further properties of the pricers *)

(** ** The lattice: parity and the sign of its prices *)

Section LatticeFacts.
Local Open Scope R_scope.
Variables S K T r sigma q : R.
Variable N : nat.
Hypothesis T_pos : 0 < T.
Hypothesis sigma_pos : 0 < sigma.
Hypothesis N_pos : (1 <= N)%nat.

Let dt := Spec.dt T N.
Let u := Spec.u T sigma N.
Let d := Spec.d T sigma N.
Let p := Spec.p T r sigma q N.
Let growth := exp ((r - q) * dt).
Let disc := exp (- (r * dt)).
Let carry := exp (- (q * dt)).

Lemma INR_steps_pos : 0 < INR N.
Proof. apply lt_0_INR. lia. Qed.

Lemma dt_pos : 0 < dt.
Proof.
  unfold dt, Spec.dt. apply Rdiv_lt_0_compat; [exact T_pos|exact INR_steps_pos].
Qed.

Lemma up_above_one : 1 < u.
Proof.
  unfold u, Spec.u. rewrite <- exp_0. apply exp_increasing.
  apply Rmult_lt_0_compat; [exact sigma_pos|].
  apply sqrt_lt_R0. exact dt_pos.
Qed.

Lemma down_below_one : 0 < d < 1.
Proof.
  pose proof up_above_one as Hu. unfold d, Spec.d. fold u. split.
  - apply Rdiv_lt_0_compat; lra.
  - apply Rmult_lt_reg_r with u; [lra|].
    unfold Rdiv. rewrite Rmult_assoc, Rinv_l by lra. lra.
Qed.

(** The up probability makes the expected one-step growth the forward's. *)
Lemma risk_neutral : p * u + (1 - p) * d = growth.
Proof.
  pose proof up_above_one as Hu. pose proof down_below_one as Hd.
  unfold p, Spec.p. fold dt u d growth. field. lra.
Qed.

Lemma disc_growth : disc * growth = carry.
Proof.
  unfold disc, growth, carry. rewrite <- exp_plus. f_equal. ring.
Qed.

Lemma step_nth (value : list R) (j i : nat) :
  (i <= j)%nat ->
  nth i (Spec.step T r sigma q N value j) 0
  = disc * (p * nth i value 0 + (1 - p) * nth (i + 1) value 0).
Proof.
  intros Hi. unfold Spec.step. rewrite nth_map_seq by lia. reflexivity.
Qed.

(** Level [k] of the tree, seen from the call and from the put: at every
    node the two values differ by the discounted forward. *)
Definition parity_at (k : nat) (calls puts : list R) : Prop :=
  forall i, (i <= k)%nat ->
    nth i calls 0 - nth i puts 0
    = S * u ^ (k - i) * d ^ i * carry ^ (N - k) - K * disc ^ (N - k).

Lemma parity_step (k : nat) (calls puts : list R) :
  (k + 1 <= N)%nat ->
  parity_at (k + 1) calls puts ->
  parity_at k (Spec.step T r sigma q N calls k) (Spec.step T r sigma q N puts k).
Proof.
  intros Hk Hlevel i Hi. rewrite !step_nth by exact Hi.
  pose proof (Hlevel i ltac:(lia)) as Hup.
  pose proof (Hlevel (i + 1)%nat ltac:(lia)) as Hdown.
  replace (k + 1 - i)%nat with (Datatypes.S (k - i)) in Hup by lia.
  replace (k + 1 - (i + 1))%nat with (k - i)%nat in Hdown by lia.
  replace (i + 1)%nat with (Datatypes.S i) in Hdown by lia.
  replace (i + 1)%nat with (Datatypes.S i) by lia.
  replace (N - k)%nat with (Datatypes.S (N - (k + 1))) by lia.
  cbn [pow] in *.
  set (A := carry ^ (N - (k + 1))) in *. set (B := disc ^ (N - (k + 1))) in *.
  set (U := u ^ (k - i)) in *. set (D := d ^ i) in *.
  transitivity (disc * (p * (nth i calls 0 - nth i puts 0)
                        + (1 - p) * (nth (Datatypes.S i) calls 0
                                     - nth (Datatypes.S i) puts 0))); [ring|].
  rewrite Hup, Hdown.
  transitivity (S * U * D * A * (disc * (p * u + (1 - p) * d)) - K * (disc * B));
    [ring|].
  rewrite risk_neutral, disc_growth. ring.
Qed.

Lemma parity_root (k : nat) :
  forall calls puts, (k <= N)%nat -> parity_at k calls puts ->
    nth 0 (fold_left (Spec.step T r sigma q N) (rev (seq 0 k)) calls) 0
    - nth 0 (fold_left (Spec.step T r sigma q N) (rev (seq 0 k)) puts) 0
    = S * carry ^ N - K * disc ^ N.
Proof.
  induction k as [|k IH]; intros calls puts Hk Hlevel.
  - cbn [seq rev fold_left]. rewrite (Hlevel 0%nat) by lia.
    cbn [Nat.sub pow]. rewrite Nat.sub_0_r. ring.
  - rewrite seq_S, rev_app_distr. cbn [rev app fold_left Nat.add].
    apply IH; [lia|]. apply parity_step; [lia|].
    now rewrite Nat.add_1_r.
Qed.

Lemma parity_terminal :
  parity_at N
    (map (Spec.terminal_payoff K Call) (Spec.terminal_prices S T sigma N))
    (map (Spec.terminal_payoff K Put) (Spec.terminal_prices S T sigma N)).
Proof.
  intros i Hi. unfold Spec.terminal_prices. rewrite !map_map.
  rewrite !nth_map_seq by lia. fold u d.
  rewrite Nat.sub_diag. cbn [pow Spec.terminal_payoff].
  set (x := S * u ^ (N - i) * d ^ i).
  unfold Rmax. destruct (Rle_dec 0 (x - K)); destruct (Rle_dec 0 (K - x)); lra.
Qed.

Lemma exp_pow (x : R) (n : nat) : exp x ^ n = exp (INR n * x).
Proof.
  induction n as [|n IH].
  - cbn. rewrite Rmult_0_l, exp_0. reflexivity.
  - rewrite S_INR. cbn [pow]. rewrite IH, <- exp_plus. f_equal. ring.
Qed.

Lemma steps_dt : INR N * dt = T.
Proof.
  pose proof INR_steps_pos. unfold dt, Spec.dt. field. lra.
Qed.

Lemma lattice_parity :
  Spec.lattice_price S K T r sigma q N Call - Spec.lattice_price S K T r sigma q N Put
  = S * exp (- (q * T)) - K * exp (- (r * T)).
Proof.
  unfold Spec.lattice_price, Spec.backward_induction.
  rewrite (parity_root (k := N)) by (try lia; exact parity_terminal).
  unfold carry, disc. rewrite !exp_pow.
  replace (INR N * - (q * dt)) with (- (q * (INR N * dt))) by ring.
  replace (INR N * - (r * dt)) with (- (r * (INR N * dt))) by ring.
  now rewrite steps_dt.
Qed.
End LatticeFacts.

Section LatticeBounds.
Local Open Scope R_scope.
Variables S K T r sigma q : R.
Variable N : nat.
Hypothesis S_pos : 0 < S.
Hypothesis K_pos : 0 < K.
Hypothesis T_pos : 0 < T.
Hypothesis sigma_pos : 0 < sigma.
Hypothesis N_pos : (1 <= N)%nat.
(** The drift of one step stays inside the tree. *)
Hypothesis inside : Rabs (r - q) * R_sqrt.sqrt (Spec.dt T N) <= sigma.

Let dt := Spec.dt T N.
Let u := Spec.u T sigma N.
Let d := Spec.d T sigma N.
Let p := Spec.p T r sigma q N.
Let disc := exp (- (r * dt)).

Lemma exp_monotone (x y : R) : x <= y -> exp x <= exp y.
Proof.
  intros [Hlt | ->]; [left; now apply exp_increasing|right; reflexivity].
Qed.

Lemma probability : 0 <= p <= 1.
Proof.
  pose proof (dt_pos T_pos N_pos) as Hdt. fold dt in Hdt.
  pose proof (up_above_one T_pos sigma_pos N_pos) as Hu. fold u in Hu.
  pose proof (down_below_one T_pos sigma_pos N_pos) as Hd. fold d in Hd.
  assert (Hs : 0 < R_sqrt.sqrt dt) by (apply sqrt_lt_R0; exact Hdt).
  assert (Hss : R_sqrt.sqrt dt * R_sqrt.sqrt dt = dt) by (apply sqrt_sqrt; lra).
  assert (Habs : - sigma <= (r - q) * R_sqrt.sqrt dt <= sigma).
  { fold dt in inside. unfold Rabs in inside.
    destruct (Rcase_abs (r - q)); split; nra. }
  assert (Hdrift : - (sigma * R_sqrt.sqrt dt) <= (r - q) * dt
                   <= sigma * R_sqrt.sqrt dt).
  { rewrite <- Hss at 2 3. split; nra. }
  assert (Hg : d <= exp ((r - q) * dt) <= u).
  { split.
    - unfold d, Spec.d, Spec.u. fold dt.
      replace (1 / exp (sigma * R_sqrt.sqrt dt))
        with (exp (- (sigma * R_sqrt.sqrt dt)))
        by (rewrite exp_Ropp; unfold Rdiv; ring).
      apply exp_monotone. lra.
    - unfold u, Spec.u. fold dt. apply exp_monotone. lra. }
  unfold p, Spec.p. fold dt u d. split.
  - apply Rmult_le_reg_r with (u - d); [lra|].
    unfold Rdiv. rewrite Rmult_assoc, Rinv_l by lra. lra.
  - apply Rmult_le_reg_r with (u - d); [lra|].
    unfold Rdiv. rewrite Rmult_assoc, Rinv_l by lra. lra.
Qed.

(** Every node of a level is worth between nothing and [M]. *)
Definition bounded_at (M : R) (value : list R) : Prop :=
  forall i, 0 <= nth i value 0 <= M.

Lemma bounded_step (M : R) (value : list R) (j : nat) :
  bounded_at M value ->
  bounded_at (disc * M) (Spec.step T r sigma q N value j).
Proof.
  intros Hv i. pose proof probability as Hp.
  assert (Hdisc : 0 < disc) by apply exp_pos.
  pose proof (Hv i) as Hi. pose proof (Hv (i + 1)%nat) as Hi1.
  destruct (Nat.le_gt_cases i j) as [Hle | Hgt].
  - unfold Spec.step. rewrite nth_map_seq by lia. fold dt p disc.
    split; [apply Rmult_le_pos; nra|].
    apply Rmult_le_compat_l; nra.
  - rewrite nth_overflow
      by (unfold Spec.step; rewrite length_map, length_seq; lia).
    split; [lra|]. apply Rmult_le_pos; lra.
Qed.

Lemma bounded_root (k : nat) :
  forall (M : R) (value : list R),
    bounded_at M value ->
    0 <= nth 0 (fold_left (Spec.step T r sigma q N) (rev (seq 0 k)) value) 0
    <= disc ^ k * M.
Proof.
  induction k as [|k IH]; intros M value Hv.
  - cbn. pose proof (Hv 0%nat). lra.
  - rewrite seq_S, rev_app_distr. cbn [rev app fold_left Nat.add pow].
    replace (disc * disc ^ k * M) with (disc ^ k * (disc * M)) by ring.
    apply IH. now apply bounded_step.
Qed.

Lemma terminal_price_pos (i : nat) : 0 < S * u ^ (N - i) * d ^ i.
Proof.
  pose proof (up_above_one T_pos sigma_pos N_pos) as Hu. fold u in Hu.
  pose proof (down_below_one T_pos sigma_pos N_pos) as Hd. fold d in Hd.
  apply Rmult_lt_0_compat; [apply Rmult_lt_0_compat|];
    [exact S_pos|apply pow_lt; lra|apply pow_lt; lra].
Qed.

Lemma put_terminal_bounded :
  bounded_at K (map (Spec.terminal_payoff K Put) (Spec.terminal_prices S T sigma N)).
Proof.
  intros i. destruct (Nat.le_gt_cases i N) as [Hle | Hgt].
  - unfold Spec.terminal_prices. rewrite map_map, nth_map_seq by lia.
    fold u d. pose proof (terminal_price_pos i) as Hx.
    cbn [Spec.terminal_payoff]. unfold Rmax.
    destruct (Rle_dec 0 (K - S * u ^ (N - i) * d ^ i)); lra.
  - rewrite nth_overflow; [lra|].
    unfold Spec.terminal_prices. rewrite !length_map, length_seq. lia.
Qed.

Lemma put_bounds :
  0 <= Spec.lattice_price S K T r sigma q N Put <= K * exp (- (r * T)).
Proof.
  unfold Spec.lattice_price, Spec.backward_induction.
  pose proof (bounded_root N put_terminal_bounded) as Hroot.
  unfold disc in Hroot. rewrite exp_pow in Hroot.
  replace (INR N * - (r * dt)) with (- (r * (INR N * dt))) in Hroot by ring.
  unfold dt in Hroot. rewrite (steps_dt T N_pos) in Hroot. lra.
Qed.

Lemma nonneg_step (value : list R) (j : nat) :
  (forall i, 0 <= nth i value 0) ->
  forall i, 0 <= nth i (Spec.step T r sigma q N value j) 0.
Proof.
  intros Hv i. pose proof probability as Hp.
  assert (Hdisc : 0 < disc) by apply exp_pos.
  pose proof (Hv i) as Hi. pose proof (Hv (i + 1)%nat) as Hi1.
  destruct (Nat.le_gt_cases i j) as [Hle | Hgt].
  - unfold Spec.step. rewrite nth_map_seq by lia. fold dt p disc.
    apply Rmult_le_pos; nra.
  - rewrite nth_overflow
      by (unfold Spec.step; rewrite length_map, length_seq; lia).
    lra.
Qed.

Lemma nonneg_root (k : nat) :
  forall value : list R,
    (forall i, 0 <= nth i value 0) ->
    0 <= nth 0 (fold_left (Spec.step T r sigma q N) (rev (seq 0 k)) value) 0.
Proof.
  induction k as [|k IH]; intros value Hv.
  - cbn. apply Hv.
  - rewrite seq_S, rev_app_distr. cbn [rev app fold_left Nat.add].
    apply IH. now apply nonneg_step.
Qed.

Lemma call_bounds :
  0 <= Spec.lattice_price S K T r sigma q N Call <= S * exp (- (q * T)).
Proof.
  pose proof put_bounds as Hput.
  pose proof (lattice_parity S K r q T_pos sigma_pos N_pos) as Hparity.
  split; [|lra].
  unfold Spec.lattice_price, Spec.backward_induction.
  apply nonneg_root. intros i.
  destruct (Nat.le_gt_cases i N) as [Hle | Hgt].
  - unfold Spec.terminal_prices. rewrite map_map, nth_map_seq by lia.
    cbn [Spec.terminal_payoff]. apply Rmax_l.
  - rewrite nth_overflow; [lra|].
    unfold Spec.terminal_prices. rewrite !length_map, length_seq. lia.
Qed.
End LatticeBounds.

Lemma steps_INR (N : Z) : (1 <= N)%Z -> INR (Z.to_nat N) = IZR N.
Proof. intros HN. rewrite INR_IZR_INZ, Z2Nat.id by lia. reflexivity. Qed.

(** X1. For T > 0, sigma > 0 and N >= 1 steps the lattice prices of the
    call and of the put satisfy put-call parity exactly (exact arithmetic):
    call - put = S e^(-qT) - K e^(-rT). *)
Theorem binomialTree_put_call_parity (S K T r sigma q : R) (N : Z) :
  (0 < T)%R -> (0 < sigma)%R -> (1 <= N)%Z ->
  exists callPrice putPrice : R,
    binomialTree S K T r sigma q N "call" = Some callPrice
    /\ binomialTree S K T r sigma q N "put" = Some putPrice
    /\ (callPrice - putPrice = S * exp (- (q * T)) - K * exp (- (r * T)))%R.
Proof.
  intros HT Hsigma HN.
  exists (Spec.lattice_price S K T r sigma q (Z.to_nat N) Call),
         (Spec.lattice_price S K T r sigma q (Z.to_nat N) Put).
  split; [apply (binomialTree_spec S K T r sigma q (N := N) Call); lia|].
  split; [apply (binomialTree_spec S K T r sigma q (N := N) Put); lia|].
  apply lattice_parity; [exact HT|exact Hsigma|lia].
Qed.

Lemma binomialTree_put_call_parity_witness :
  exists callPrice putPrice : R,
    binomialTree 100%R 95%R 1%R 0.05%R 0.2%R 0%R 3 "call" = Some callPrice
    /\ binomialTree 100%R 95%R 1%R 0.05%R 0.2%R 0%R 3 "put" = Some putPrice
    /\ (callPrice - putPrice = 100 * exp (- (0 * 1)) - 95 * exp (- (0.05 * 1)))%R.
Proof. apply binomialTree_put_call_parity; [lra|lra|lia]. Defined.

(** X2. For valid parameters whose one-step drift stays inside the tree,
    |r - q| sqrt(T/N) <= sigma, the up probability lies in [0, 1] and the
    lattice prices keep the no-arbitrage bounds: 0 <= call <= S e^(-qT) and
    0 <= put <= K e^(-rT). *)
Theorem binomialTree_no_arbitrage_bounds (S K T r sigma q : R) (N : Z) :
  (0 < S)%R -> (0 < K)%R -> (0 < T)%R -> (0 < sigma)%R -> (1 <= N)%Z ->
  (Rabs (r - q) * R_sqrt.sqrt (T / IZR N) <= sigma)%R ->
  exists callPrice putPrice : R,
    binomialTree S K T r sigma q N "call" = Some callPrice
    /\ binomialTree S K T r sigma q N "put" = Some putPrice
    /\ (0 <= callPrice <= S * exp (- (q * T)))%R
    /\ (0 <= putPrice <= K * exp (- (r * T)))%R.
Proof.
  intros HS HK HT Hsigma HN Hinside.
  assert (Hn : (1 <= Z.to_nat N)%nat) by lia.
  assert (Hdrift : (Rabs (r - q) * R_sqrt.sqrt (Spec.dt T (Z.to_nat N)) <= sigma)%R).
  { unfold Spec.dt. now rewrite steps_INR. }
  exists (Spec.lattice_price S K T r sigma q (Z.to_nat N) Call),
         (Spec.lattice_price S K T r sigma q (Z.to_nat N) Put).
  split; [apply (binomialTree_spec S K T r sigma q (N := N) Call); lia|].
  split; [apply (binomialTree_spec S K T r sigma q (N := N) Put); lia|].
  split.
  - now apply call_bounds.
  - now apply put_bounds.
Qed.

Lemma binomialTree_no_arbitrage_bounds_witness :
  exists callPrice putPrice : R,
    binomialTree 100%R 95%R 1%R 0.05%R 0.2%R 0.05%R 3 "call" = Some callPrice
    /\ binomialTree 100%R 95%R 1%R 0.05%R 0.2%R 0.05%R 3 "put" = Some putPrice
    /\ (0 <= callPrice <= 100 * exp (- (0.05 * 1)))%R
    /\ (0 <= putPrice <= 95 * exp (- (0.05 * 1)))%R.
Proof.
  apply binomialTree_no_arbitrage_bounds; [lra|lra|lra|lra|lia|].
  replace (0.05 - 0.05)%R with 0%R by lra.
  rewrite Rabs_R0, Rmult_0_l. lra.
Defined.


(** ** The analytic pricer: bounds and a negative volatility *)

(** X4. For S > 0, K > 0, T > 0, sigma > 0 and an [erf] with values in
    [-1, 1] the prices of [blackScholes] are bounded by the discounted spot
    and strike: -K e^(-rT) <= call <= S e^(-qT) and
    -S e^(-qT) <= put <= K e^(-rT). *)
Theorem blackScholes_bounds (erf : R -> R) (S K T r sigma q : R) :
  (forall y, -1 <= erf y <= 1)%R ->
  (0 < S)%R -> (0 < K)%R -> (0 < T)%R -> (0 < sigma)%R ->
  (- (K * exp (- (r * T))) <= fst (blackScholes erf S K T r sigma q)
   <= S * exp (- (q * T)))%R
  /\ (- (S * exp (- (q * T))) <= snd (blackScholes erf S K T r sigma q)
      <= K * exp (- (r * T)))%R.
Proof.
  intros Herf HS HK _ _. rewrite blackScholes_unfold. cbn [fst snd].
  unfold Spec.call, Spec.put.
  assert (Hphi : forall x, (0 <= normalCdf erf x <= 1)%R).
  { intros x. rewrite normalCdf_unfold. specialize (Herf (x / R_sqrt.sqrt 2)%R). lra. }
  pose proof (exp_pos (- (q * T))) as Hq. pose proof (exp_pos (- (r * T))) as Hr.
  pose proof (Hphi (Spec.d1 S K T r sigma q)) as H1.
  pose proof (Hphi (Spec.d2 S K T r sigma q)) as H2.
  pose proof (Hphi (- Spec.d1 S K T r sigma q)%R) as H3.
  pose proof (Hphi (- Spec.d2 S K T r sigma q)%R) as H4.
  set (Fs := (S * exp (- (q * T)))%R). set (Fk := (K * exp (- (r * T)))%R).
  assert (HFs : (0 <= Fs)%R) by (apply Rmult_le_pos; lra).
  assert (HFk : (0 <= Fk)%R) by (apply Rmult_le_pos; lra).
  split; split; nra.
Qed.

Lemma blackScholes_bounds_witness :
  (- (95 * exp (- (0.05 * 1))) <= fst (blackScholes softsign 100 95 1 0.05 0.2 0)
   <= 100 * exp (- (0 * 1)))%R
  /\ (- (100 * exp (- (0 * 1))) <= snd (blackScholes softsign 100 95 1 0.05 0.2 0)
      <= 95 * exp (- (0.05 * 1)))%R.
Proof. apply blackScholes_bounds; [exact softsign_bounded|lra..]. Defined.

(** X5. A negative volatility mirrors the prices: for sigma <> 0 and T > 0,
    [blackScholes] at -sigma returns (-put, -call) of its result at sigma;
    the first draft prices such cells when the volatility axis runs below
    zero. *)
Theorem blackScholes_negated_volatility (erf : R -> R) (S K T r sigma q : R) :
  sigma <> 0%R -> (0 < T)%R ->
  blackScholes erf S K T r (- sigma)%R q
  = ((- snd (blackScholes erf S K T r sigma q))%R,
     (- fst (blackScholes erf S K T r sigma q))%R).
Proof.
  intros Hsigma HT. rewrite !blackScholes_unfold. cbn [fst snd].
  assert (Hs : R_sqrt.sqrt T <> 0%R)
    by (apply Rgt_not_eq, sqrt_lt_R0; exact HT).
  assert (H1 : Spec.d1 S K T r (- sigma) q = (- Spec.d1 S K T r sigma q)%R).
  { unfold Spec.d1. field. split; assumption. }
  assert (H2 : Spec.d2 S K T r (- sigma) q = (- Spec.d2 S K T r sigma q)%R).
  { unfold Spec.d2. rewrite H1. ring. }
  unfold Spec.call, Spec.put. rewrite H1, H2, !Ropp_involutive.
  f_equal; ring.
Qed.

Lemma blackScholes_negated_volatility_witness :
  blackScholes softsign 100%R 95%R 1%R 0.05%R (Ropp 0.2%R) 0%R
  = ((- snd (blackScholes softsign 100 95 1 0.05 0.2 0))%R,
     (- fst (blackScholes softsign 100 95 1 0.05 0.2 0))%R).
Proof. apply (blackScholes_negated_volatility softsign 100 95 0.05 0); lra. Defined.

(** * Further properties of the engine *)

(** ** A model the engine does not know *)

Lemma map_const_seq {A : Type} (x : A) (lo n : nat) :
  map (fun _ => x) (seq lo n) = repeat x n.
Proof.
  revert lo. induction n as [|n IH]; intros lo; [reflexivity|].
  cbn. now rewrite IH.
Qed.

(** A loop whose inner loop leaves its rows alone pushes empty rows. *)
Lemma idle_grid_loops {A : Type}
    (cell : nat -> nat -> list A * list A -> list A * list A) (rows cols : nat) :
  (forall i j state, cell i j state = state) ->
  for_up 0 rows
    (fun i data =>
       let '(callData, putData) := data in
       let '(callRow, putRow) := for_up 0 cols (cell i) ([], []) in
       (callData ++ [callRow], putData ++ [putRow]))
    ([], [])
  = (repeat [] rows, repeat [] rows).
Proof.
  intros Hidle.
  rewrite <- (map_const_seq (@nil A) 0 rows).
  etransitivity;
    [|exact (push_loop (fun _ => @nil A) (fun _ => @nil A) rows [] [])].
  apply for_up_ext. intros i [callData putData].
  assert (E : for_up 0 cols (cell i) ([], []) = ([], [])).
  { apply for_up_invariant with (P := fun st => st = ([], [])); [reflexivity|].
    intros j st ->. apply Hidle. }
  rewrite E. reflexivity.
Qed.

(** X6. For a model name other than "Black-Scholes" and "Binomial Tree"
    the engine prices nothing and reports nothing: the point computation
    sets no results, and [generateHeatmapData] returns one empty row per
    volatility in both matrices; in either draft. *)
Theorem unknown_model_empty_rows {num : Type} {HN : JSNum num} (erf : num -> num)
    (model : string) (inputs : Inputs num) (strikePrices volatilities : list num) :
  model <> "Black-Scholes"%string -> model <> "Binomial Tree"%string ->
  V2.computeResults erf model inputs = None
  /\ V1.computeResults erf model inputs = None
  /\ V2.generateHeatmapData erf model inputs strikePrices volatilities
     = (repeat [] (List.length volatilities), repeat [] (List.length volatilities))
  /\ V1.generateHeatmapData erf model inputs strikePrices volatilities
     = (repeat [] (List.length volatilities), repeat [] (List.length volatilities)).
Proof.
  intros Hbs Hbt.
  assert (E1 : String.eqb model "Black-Scholes" = false)
    by (apply String.eqb_neq; exact Hbs).
  assert (E2 : String.eqb model "Binomial Tree" = false)
    by (apply String.eqb_neq; exact Hbt).
  split; [unfold V2.computeResults; now rewrite E1, E2|].
  split; [unfold V1.computeResults; now rewrite E1, E2|].
  split.
  - unfold V2.generateHeatmapData. apply idle_grid_loops.
    intros i j [callRow putRow]. unfold V2.cell. now rewrite E1, E2.
  - unfold V1.generateHeatmapData. apply idle_grid_loops.
    intros i j [callRow putRow]. unfold V1.cell. now rewrite E1, E2.
Qed.

Lemma unknown_model_empty_rows_witness :
  V2.computeResults softsign "Heston" default_inputs = None
  /\ V1.computeResults softsign "Heston" default_inputs = None
  /\ V2.generateHeatmapData softsign "Heston" default_inputs
       [80%R; 100%R; 120%R] [0.3%R; 0.2%R]
     = (repeat [] (List.length [0.3%R; 0.2%R]), repeat [] (List.length [0.3%R; 0.2%R]))
  /\ V1.generateHeatmapData softsign "Heston" default_inputs
       [80%R; 100%R; 120%R] [0.3%R; 0.2%R]
     = (repeat [] (List.length [0.3%R; 0.2%R]), repeat [] (List.length [0.3%R; 0.2%R])).
Proof. apply unknown_model_empty_rows; discriminate. Defined.

(** ** The heat map of [Home] *)

(** X7. For either known model the heat map [Home] builds has 10 rows of 10
    entries in both matrices, and entry [i][j] is the point computation at
    the j-th value of the strike axis and the i-th value of the volatility
    axis; in either draft. *)
Theorem heatmap_ten_by_ten {num : Type} {HN : JSNum num} (erf : num -> num)
    (model : string) (inputs : Inputs num) :
  model = "Black-Scholes"%string \/ model = "Binomial Tree"%string ->
  ten_by_ten (V2_heatmap erf model inputs)
  /\ grid_of_points
       (fun K vol => V2.computeResults erf model (at_point inputs K vol))
       (V2.strikePrices inputs) (V2.volatilities inputs)
       (V2_heatmap erf model inputs)
  /\ ten_by_ten (V1_heatmap erf model inputs)
  /\ grid_of_points
       (fun K vol => V1.computeResults erf model (at_point inputs K vol))
       (V1.strikePrices inputs) (V1.volatilities inputs)
       (V1_heatmap erf model inputs).
Proof.
  intros Hmodel.
  pose proof (V2_grid erf inputs (V2.strikePrices inputs) (V2.volatilities inputs)
                Hmodel) as H2.
  pose proof (V1_grid erf inputs (V1.strikePrices inputs) (V1.volatilities inputs)
                Hmodel) as H1.
  split; [|split; [exact H2|split; [|exact H1]]].
  - destruct H2 as (L1 & L2 & F1 & F2 & _). unfold ten_by_ten, V2_heatmap.
    repeat split; assumption.
  - destruct H1 as (L1 & L2 & F1 & F2 & _). unfold ten_by_ten, V1_heatmap.
    repeat split; assumption.
Qed.

Lemma heatmap_ten_by_ten_witness :
  ten_by_ten (V2_heatmap softsign "Black-Scholes" default_inputs)
  /\ grid_of_points
       (fun K vol => V2.computeResults softsign "Black-Scholes"
                       (at_point default_inputs K vol))
       (V2.strikePrices default_inputs) (V2.volatilities default_inputs)
       (V2_heatmap softsign "Black-Scholes" default_inputs)
  /\ ten_by_ten (V1_heatmap softsign "Black-Scholes" default_inputs)
  /\ grid_of_points
       (fun K vol => V1.computeResults softsign "Black-Scholes"
                       (at_point default_inputs K vol))
       (V1.strikePrices default_inputs) (V1.volatilities default_inputs)
       (V1_heatmap softsign "Black-Scholes" default_inputs).
Proof. apply heatmap_ten_by_ten. left. reflexivity. Defined.

(** ** The two axes *)

Section Axes.
Local Open Scope R_scope.

Lemma R_toFixed2_nonneg_arg (x : R) :
  0 <= x -> R_toFixed2 x = toFixed2_magnitude x.
Proof.
  intros Hx. unfold R_toFixed2, toFixed2_magnitude.
  destruct (Rlt_dec x 0); [lra|reflexivity].
Qed.

Lemma R_toFixed2_neg_arg (x : R) :
  x < 0 -> R_toFixed2 x = - toFixed2_magnitude (- x).
Proof.
  intros Hx. unfold R_toFixed2, toFixed2_magnitude.
  destruct (Rlt_dec x 0); [reflexivity|lra].
Qed.

Lemma magnitude_nonneg (a : R) : 0 <= a -> 0 <= toFixed2_magnitude a.
Proof.
  intros Ha. unfold toFixed2_magnitude.
  destruct (Rle_dec (10 ^ 21) a); [exact Ha|].
  assert (H0 : (0 <= Zfloor (a * 100 + / 2))%Z) by (apply Zfloor_lub; lra).
  apply IZR_le in H0. lra.
Qed.

Lemma big_cents : IZR (10 ^ 23) = 10 ^ 21 * 100.
Proof.
  change (10 ^ 23)%Z with (10 ^ Z.of_nat 21 * 100)%Z.
  rewrite mult_IZR, <- pow_IZR. reflexivity.
Qed.

Lemma magnitude_monotone (a b : R) :
  0 <= a -> a <= b -> toFixed2_magnitude a <= toFixed2_magnitude b.
Proof.
  intros Ha Hab. unfold toFixed2_magnitude.
  destruct (Rle_dec (10 ^ 21) a) as [Hbig_a|Hsmall_a];
    destruct (Rle_dec (10 ^ 21) b) as [Hbig_b|Hsmall_b].
  - exact Hab.
  - lra.
  - pose proof (Zfloor_bound (a * 100 + / 2)) as [Hlo _].
    assert (Hlt : IZR (Zfloor (a * 100 + / 2)) < IZR (10 ^ 23 + 1)).
    { rewrite plus_IZR, big_cents. lra. }
    apply lt_IZR in Hlt.
    assert (Hle : (Zfloor (a * 100 + / 2) <= 10 ^ 23)%Z) by lia.
    apply IZR_le in Hle. rewrite big_cents in Hle. lra.
  - assert (Hfl : (Zfloor (a * 100 + / 2) <= Zfloor (b * 100 + / 2))%Z)
      by (apply Zfloor_le; lra).
    apply IZR_le in Hfl. lra.
Qed.

(** Printing with two decimals keeps the order. *)
Lemma R_toFixed2_monotone (x y : R) : x <= y -> R_toFixed2 x <= R_toFixed2 y.
Proof.
  intros Hxy.
  destruct (Rlt_dec x 0) as [Hx|Hx]; destruct (Rlt_dec y 0) as [Hy|Hy].
  - rewrite !R_toFixed2_neg_arg by assumption.
    pose proof (@magnitude_monotone (- y) (- x)). lra.
  - rewrite R_toFixed2_neg_arg by assumption.
    rewrite R_toFixed2_nonneg_arg by lra.
    pose proof (@magnitude_nonneg (- x)). pose proof (@magnitude_nonneg y). lra.
  - lra.
  - rewrite !R_toFixed2_nonneg_arg by lra.
    apply magnitude_monotone; lra.
Qed.

Lemma R_toFixed2_nonneg (x : R) : 0 <= x -> 0 <= R_toFixed2 x.
Proof.
  intros Hx. rewrite R_toFixed2_nonneg_arg by exact Hx.
  now apply magnitude_nonneg.
Qed.

(** Printing a printed number changes nothing. *)
Lemma R_toFixed2_idempotent (x : R) : R_toFixed2 (R_toFixed2 x) = R_toFixed2 x.
Proof.
  assert (Hmag : forall a, toFixed2_magnitude a = a
                           \/ exists n, toFixed2_magnitude a = IZR n / 100).
  { intros a. unfold toFixed2_magnitude.
    destruct (Rle_dec (10 ^ 21) a); [now left|right; eexists; reflexivity]. }
  destruct (Rlt_dec x 0) as [Hx|Hx].
  - rewrite (R_toFixed2_neg_arg Hx).
    destruct (Hmag (- x)) as [E | [n E]]; rewrite E.
    + rewrite Ropp_involutive. rewrite (R_toFixed2_neg_arg Hx), E. ring.
    + replace (- (IZR n / 100)) with (IZR (- n) / 100)
        by (rewrite opp_IZR; field).
      apply R_toFixed2_cents.
  - assert (Hx0 : 0 <= x) by lra. rewrite (R_toFixed2_nonneg_arg Hx0).
    destruct (Hmag x) as [E | [n E]]; rewrite E.
    + rewrite (R_toFixed2_nonneg_arg Hx0). exact E.
    + apply R_toFixed2_cents.
Qed.

Lemma V2_volatility_at (inputs : Inputs R) (i : nat) :
  (i < 10)%nat ->
  nth i (V2.volatilities inputs) 0
  = R_toFixed2 (Rmax (in_sigma inputs - 0.1 + INR (9 - i) * 0.02) 0).
Proof.
  intros Hi. unfold V2.volatilities.
  rewrite rev_nth by (rewrite length_map, length_seq; exact Hi).
  rewrite length_map, length_seq, nth_map_seq by lia.
  cbn [num_add num_sub num_mul num_lit Math_max toFixed2 RNum].
  rewrite ofnat_R, ofZ_R.
  replace (10 - Datatypes.S i)%nat with (9 - i)%nat by lia. reflexivity.
Qed.

Lemma V1_volatility_at (inputs : Inputs R) (i : nat) :
  (i < 10)%nat ->
  nth i (V1.volatilities inputs) 0
  = R_toFixed2 (in_sigma inputs - 0.1 + INR (9 - i) * 0.02).
Proof.
  intros Hi. unfold V1.volatilities.
  rewrite rev_nth by (rewrite length_map, length_seq; exact Hi).
  rewrite length_map, length_seq, nth_map_seq by lia.
  cbn [num_add num_sub num_mul num_lit toFixed2 RNum].
  rewrite ofnat_R.
  replace (10 - Datatypes.S i)%nat with (9 - i)%nat by lia. reflexivity.
Qed.

Lemma axis_step (i j : nat) :
  (i <= j)%nat -> (j < 10)%nat -> INR (9 - j) <= INR (9 - i).
Proof. intros Hij Hj. apply le_INR. lia. Qed.
End Axes.

(** The two axes in binary64, entry by entry. *)
Lemma V2_volatility_binary64 (M : ESMath) (finputs : Inputs float) (i : nat) :
  (i < 10)%nat ->
  nth i (@V2.volatilities _ (IEEE M) finputs) nan
  = es_toFixed2 M
      (float_max (in_sigma finputs - float_lit 0.1
                  + @ofnat _ (IEEE M) (9 - i) * float_lit 0.02) 0)%float.
Proof.
  intros Hi. unfold V2.volatilities.
  rewrite rev_nth by (rewrite length_map, length_seq; exact Hi).
  rewrite length_map, length_seq, nth_map_seq by lia.
  replace (10 - Datatypes.S i)%nat with (9 - i)%nat by lia. reflexivity.
Qed.

Lemma V1_volatility_binary64 (M : ESMath) (finputs : Inputs float) (i : nat) :
  (i < 10)%nat ->
  nth i (@V1.volatilities _ (IEEE M) finputs) nan
  = es_toFixed2 M
      (in_sigma finputs - float_lit 0.1
       + @ofnat _ (IEEE M) (9 - i) * float_lit 0.02)%float.
Proof.
  intros Hi. unfold V1.volatilities.
  rewrite rev_nth by (rewrite length_map, length_seq; exact Hi).
  rewrite length_map, length_seq, nth_map_seq by lia.
  replace (10 - Datatypes.S i)%nat with (9 - i)%nat by lia. reflexivity.
Qed.

(** Runs of the axes on the runtime that prints as the standard says: the
    second draft at sigma = 0.125, where 0.125 - 0.1 is computed as
    0.024999999999999994, and both drafts at sigma = 0.05. *)
Lemma volatility_axis_runs :
  @V2.volatilities _ (IEEE printing_math) narrow_range_finputs
  = map float_lit [0.2; 0.18; 0.17; 0.14; 0.13; 0.1; 0.08; 0.07; 0.04; 0.02]
  /\ @V1.volatilities _ (IEEE printing_math) low_volatility_finputs
     = map float_lit [0.13; 0.11; 0.09; 0.07; 0.05; 0.03; 0.01; -0.01; -0.03; -0.05]
  /\ @V2.volatilities _ (IEEE printing_math) low_volatility_finputs
     = map float_lit [0.13; 0.11; 0.09; 0.07; 0.05; 0.03; 0.01; 0; 0; 0].
Proof. vm_compute. repeat split. Qed.

(** X8. The volatility axis of the second draft has 10 values; the i-th
    is the number max(sigma - 0.1 + 0.02 (9 - i), 0) the engine computes,
    printed with two decimals and read back (at sigma = 0.125 in binary64:
    0.2, 0.18, 0.17, 0.14, 0.13, 0.1, 0.08, 0.07, 0.04, 0.02).  In exact
    arithmetic no value is below zero and the values are in non-increasing
    order, so that flooring them again at zero, as [generateHeatmapData]
    does, changes nothing. *)
Theorem V2_volatility_axis (M : ESMath) (finputs : Inputs float)
    (inputs : Inputs R) (i j : nat) :
  (i <= j)%nat -> (j < 10)%nat ->
  List.length (@V2.volatilities _ (IEEE M) finputs) = 10%nat
  /\ nth i (@V2.volatilities _ (IEEE M) finputs) nan
     = es_toFixed2 M
         (float_max (in_sigma finputs - float_lit 0.1
                     + @ofnat _ (IEEE M) (9 - i) * float_lit 0.02) 0)%float
  /\ @V2.volatilities _ (IEEE printing_math) narrow_range_finputs
     = map float_lit [0.2; 0.18; 0.17; 0.14; 0.13; 0.1; 0.08; 0.07; 0.04; 0.02]
  /\ List.length (V2.volatilities inputs) = 10%nat
  /\ (0 <= nth i (V2.volatilities inputs) 0)%R
  /\ (nth j (V2.volatilities inputs) 0 <= nth i (V2.volatilities inputs) 0)%R
  /\ Math_max (nth i (V2.volatilities inputs) 0%R) (ofZ 0)
     = nth i (V2.volatilities inputs) 0%R.
Proof.
  intros Hij Hj. pose proof (axis_step Hij Hj) as Hstep.
  assert (Hnonneg : (0 <= nth i (V2.volatilities inputs) 0)%R).
  { rewrite V2_volatility_at by lia. apply R_toFixed2_nonneg, Rmax_r. }
  split; [reflexivity|]. split; [apply V2_volatility_binary64; lia|].
  split; [exact (proj1 volatility_axis_runs)|].
  split; [reflexivity|]. split; [exact Hnonneg|]. split.
  - rewrite !V2_volatility_at by lia. apply R_toFixed2_monotone.
    apply Rle_max_compat_r. lra.
  - rewrite ofZ_R. cbn [Math_max RNum]. apply Rmax_left. exact Hnonneg.
Qed.

Lemma V2_volatility_axis_witness :
  List.length (@V2.volatilities _ (IEEE printing_math) default_finputs) = 10%nat
  /\ nth 2 (@V2.volatilities _ (IEEE printing_math) default_finputs) nan
     = es_toFixed2 printing_math
         (float_max (in_sigma default_finputs - float_lit 0.1
                     + @ofnat _ (IEEE printing_math) (9 - 2) * float_lit 0.02) 0)%float
  /\ @V2.volatilities _ (IEEE printing_math) narrow_range_finputs
     = map float_lit [0.2; 0.18; 0.17; 0.14; 0.13; 0.1; 0.08; 0.07; 0.04; 0.02]
  /\ List.length (V2.volatilities default_inputs) = 10%nat
  /\ (0 <= nth 2 (V2.volatilities default_inputs) 0)%R
  /\ (nth 7 (V2.volatilities default_inputs) 0
      <= nth 2 (V2.volatilities default_inputs) 0)%R
  /\ Math_max (nth 2 (V2.volatilities default_inputs) 0%R) (ofZ 0)
     = nth 2 (V2.volatilities default_inputs) 0%R.
Proof.
  apply (@V2_volatility_axis printing_math default_finputs default_inputs 2 7); lia.
Defined.

(** X9. The volatility axis of the first draft is not floored: its i-th
    value is the number sigma - 0.1 + 0.02 (9 - i) the engine computes,
    printed with two decimals and read back.  For sigma <= 0.09 the values,
    in non-increasing order in exact arithmetic, end at -0.01 or less, a
    negative volatility handed to the pricers: at sigma = 0.05 in binary64
    the axis ends with -0.01, -0.03, -0.05, where the second draft has three
    zeros. *)
Theorem V1_volatility_axis (M : ESMath) (finputs : Inputs float)
    (inputs : Inputs R) (i j : nat) :
  (i <= j)%nat -> (j < 10)%nat -> (in_sigma inputs <= 0.09)%R ->
  nth i (@V1.volatilities _ (IEEE M) finputs) nan
  = es_toFixed2 M
      (in_sigma finputs - float_lit 0.1
       + @ofnat _ (IEEE M) (9 - i) * float_lit 0.02)%float
  /\ @V1.volatilities _ (IEEE printing_math) low_volatility_finputs
     = map float_lit [0.13; 0.11; 0.09; 0.07; 0.05; 0.03; 0.01; -0.01; -0.03; -0.05]
  /\ @V2.volatilities _ (IEEE printing_math) low_volatility_finputs
     = map float_lit [0.13; 0.11; 0.09; 0.07; 0.05; 0.03; 0.01; 0; 0; 0]
  /\ (nth j (V1.volatilities inputs) 0 <= nth i (V1.volatilities inputs) 0)%R
  /\ (nth 9 (V1.volatilities inputs) 0 <= - 0.01)%R.
Proof.
  intros Hij Hj Hsigma. pose proof (axis_step Hij Hj) as Hstep.
  split; [apply V1_volatility_binary64; lia|].
  split; [exact (proj1 (proj2 volatility_axis_runs))|].
  split; [exact (proj2 (proj2 volatility_axis_runs))|].
  split.
  - rewrite !V1_volatility_at by lia. apply R_toFixed2_monotone. lra.
  - rewrite V1_volatility_at by lia.
    eapply Rle_trans; [apply (@R_toFixed2_monotone _ (- (IZR 1 / 100)))|].
    + cbn [Nat.sub INR]. lra.
    + replace (- (IZR 1 / 100))%R with (IZR (- 1) / 100)%R by lra.
      rewrite R_toFixed2_cents. lra.
Qed.

Lemma V1_volatility_axis_witness :
  nth 2 (@V1.volatilities _ (IEEE printing_math) low_volatility_finputs) nan
  = es_toFixed2 printing_math
      (in_sigma low_volatility_finputs - float_lit 0.1
       + @ofnat _ (IEEE printing_math) (9 - 2) * float_lit 0.02)%float
  /\ @V1.volatilities _ (IEEE printing_math) low_volatility_finputs
     = map float_lit [0.13; 0.11; 0.09; 0.07; 0.05; 0.03; 0.01; -0.01; -0.03; -0.05]
  /\ @V2.volatilities _ (IEEE printing_math) low_volatility_finputs
     = map float_lit [0.13; 0.11; 0.09; 0.07; 0.05; 0.03; 0.01; 0; 0; 0]
  /\ (nth 7 (V1.volatilities low_volatility_inputs) 0
      <= nth 2 (V1.volatilities low_volatility_inputs) 0)%R
  /\ (nth 9 (V1.volatilities low_volatility_inputs) 0 <= - 0.01)%R.
Proof.
  apply (@V1_volatility_axis printing_math low_volatility_finputs
           low_volatility_inputs 2 7); [lia|lia|].
  unfold low_volatility_inputs. cbn [in_sigma]. lra.
Defined.

(** X10. The strike axis is in non-decreasing order whenever
    K_min <= K_max, and every strike on it is a value [toFixed(2)] leaves
    unchanged. *)
Theorem strike_axis_ordered (inputs : Inputs R) (i j : nat) :
  (in_K_min inputs <= in_K_max inputs)%R -> (i <= j)%nat -> (j < 10)%nat ->
  (nth i (V2.strikePrices inputs) 0 <= nth j (V2.strikePrices inputs) 0)%R
  /\ R_toFixed2 (nth i (V2.strikePrices inputs) 0%R)
     = nth i (V2.strikePrices inputs) 0%R.
Proof.
  intros HK Hij Hj. rewrite !strike_at by lia. split.
  - apply R_toFixed2_monotone. unfold Spec.linear_strike.
    assert (Hstep : (INR i <= INR j)%R) by (apply le_INR; exact Hij).
    replace (INR 10 - 1)%R with 9%R by (cbn; ring).
    assert (Hw : (0 <= in_K_max inputs - in_K_min inputs)%R) by lra.
    pose proof (Rmult_le_compat_r _ _ _ Hw Hstep). lra.
  - apply R_toFixed2_idempotent.
Qed.

Lemma strike_axis_ordered_witness :
  (nth 2 (V2.strikePrices default_inputs) 0
   <= nth 7 (V2.strikePrices default_inputs) 0)%R
  /\ R_toFixed2 (nth 2 (V2.strikePrices default_inputs) 0%R)
     = nth 2 (V2.strikePrices default_inputs) 0%R.
Proof.
  apply (@strike_axis_ordered default_inputs 2 7); [|lia|lia].
  unfold default_inputs. cbn [in_K_min in_K_max]. lra.
Defined.

(** * Properties of the presentation code *)

(** ** Strings of digits *)

Fixpoint string_forallb (f : ascii -> bool) (s : string) : bool :=
  match s with
  | EmptyString => true
  | String c rest => f c && string_forallb f rest
  end.

(** A decimal digit, and so not a comma. *)
Definition is_digit (c : ascii) : bool :=
  ((48 <=? nat_of_ascii c) && (nat_of_ascii c <=? 57))%nat.

Lemma digit_kept (c : ascii) : is_digit c = true -> digit_or_comma c = true.
Proof. intros Hc. unfold digit_or_comma. fold (is_digit c). now rewrite Hc. Qed.

Lemma digit_not_comma (c : ascii) : is_digit c = true -> Ascii.eqb c "," = false.
Proof.
  intros Hc. destruct (Ascii.eqb_spec c ","%char) as [-> |]; [discriminate|reflexivity].
Qed.

Lemma uint_digits (d : Decimal.uint) :
  string_forallb is_digit (NilEmpty.string_of_uint d) = true.
Proof. induction d; cbn; try reflexivity; exact IHd. Qed.

Lemma show_nat_digits (n : nat) : string_forallb is_digit (show_nat n) = true.
Proof. apply uint_digits. Qed.

Lemma append_empty_r (s : string) : (s ++ "")%string = s.
Proof. induction s as [|c s IH]; [reflexivity|]. cbn. now rewrite IH. Qed.

Lemma string_filter_app (keep : ascii -> bool) (s t : string) :
  string_filter keep (s ++ t) = (string_filter keep s ++ string_filter keep t)%string.
Proof.
  induction s as [|c s IH]; [reflexivity|].
  cbn. destruct (keep c); cbn; now rewrite IH.
Qed.

Lemma string_filter_digits (s : string) :
  string_forallb is_digit s = true -> string_filter digit_or_comma s = s.
Proof.
  induction s as [|c s IH]; [reflexivity|].
  cbn. intros H. apply andb_true_iff in H as [Hc Hs].
  rewrite (digit_kept _ Hc), IH by exact Hs. reflexivity.
Qed.

Lemma split_commas_digits (s : string) :
  string_forallb is_digit s = true -> split_commas s = [s].
Proof.
  induction s as [|c s IH]; [reflexivity|].
  cbn. intros H. apply andb_true_iff in H as [Hc Hs].
  rewrite (digit_not_comma _ Hc), IH by exact Hs. reflexivity.
Qed.

Lemma split_commas_first (s t : string) :
  string_forallb is_digit s = true ->
  split_commas (s ++ String "," t) = s :: split_commas t.
Proof.
  induction s as [|c s IH]; [reflexivity|].
  cbn. intros H. apply andb_true_iff in H as [Hc Hs].
  rewrite (digit_not_comma _ Hc), IH by exact Hs. reflexivity.
Qed.

Section ColourFacts.
Context {num : Type} `{JSNum num} `{JSNumUI num}.

Lemma Number_digits_show (n : nat) : Number_digits (show_nat n) = ofnat n.
Proof.
  unfold Number_digits, show_nat.
  now rewrite NilEmpty.usu, DecimalNat.Unsigned.of_to.
Qed.

Lemma strip_rgb (r g b : nat) :
  string_filter digit_or_comma (rgb (r, g, b))
  = (show_nat r ++ String "," (show_nat g ++ String "," (show_nat b)))%string.
Proof.
  unfold rgb.
  change ("rgb(" ++ show_nat r ++ ", " ++ show_nat g ++ ", " ++ show_nat b ++ ")")%string
    with ("rgb(" ++ (show_nat r ++ (", " ++ (show_nat g ++ (", " ++ (show_nat b ++ ")"))))))%string.
  rewrite !string_filter_app.
  rewrite (string_filter_digits (show_nat r)) by apply show_nat_digits.
  rewrite (string_filter_digits (show_nat g)) by apply show_nat_digits.
  rewrite (string_filter_digits (show_nat b)) by apply show_nat_digits.
  change (string_filter digit_or_comma "rgb(") with ""%string.
  change (string_filter digit_or_comma ", ") with ","%string.
  change (string_filter digit_or_comma ")") with ""%string.
  cbn [append]. now rewrite append_empty_r.
Qed.

Lemma parse_rgb_round_trip (r g b : nat) :
  parse_rgb (rgb (r, g, b)) = [ofnat r; ofnat g; ofnat b].
Proof.
  unfold parse_rgb. rewrite strip_rgb.
  rewrite !split_commas_first by apply show_nat_digits.
  rewrite split_commas_digits by apply show_nat_digits.
  cbn [map]. now rewrite !Number_digits_show.
Qed.
End ColourFacts.

(** X11. The colour string [viridisColor] returns is read back exactly by
    [cellStyle]: stripping everything but digits and commas from
    "rgb(r, g, b)", splitting at the commas and converting the pieces gives
    the numbers r, g and b, for any three non-negative integers. *)
Theorem rgb_round_trip {num : Type} {HN : JSNum num} {HU : JSNumUI num}
    (r g b : nat) :
  parse_rgb (rgb (r, g, b)) = [ofnat r; ofnat g; ofnat b].
Proof. apply parse_rgb_round_trip. Qed.

(** ** The palette *)

Section Palette.
Local Open Scope R_scope.
Variables value min max : R.

Lemma viridis_scale_range : 0 <= viridis_scale value min max <= 1.
Proof.
  unfold viridis_scale. cbn [Math_max Math_min num_sub num_div RNum RNumUI].
  rewrite !ofZ_R. split; [apply Rmax_l|].
  apply Rmax_lub; [lra|apply Rmin_l].
Qed.

Lemma viridis_index_floor :
  viridis_index value min max = IZR (Zfloor (viridis_scale value min max * 9)).
Proof.
  unfold viridis_index. cbn [Math_floor num_mul num_sub RNum RNumUI].
  rewrite ofnat_R, ofZ_R.
  replace (INR (List.length viridisColors) - 1) with 9 by (cbn; ring).
  reflexivity.
Qed.

Lemma viridis_floor_range : (0 <= Zfloor (viridis_scale value min max * 9) <= 9)%Z.
Proof.
  pose proof viridis_scale_range as Hs.
  pose proof (Zfloor_bound (viridis_scale value min max * 9)) as [Hlo Hhi].
  split.
  - apply Zfloor_lub. lra.
  - apply le_IZR. lra.
Qed.

Lemma array_index_integer (z : Z) :
  (0 <= z)%Z -> array_index (IZR z) = Some (Z.to_nat z).
Proof.
  intros Hz. cbn [array_index RNumUI]. rewrite ZfloorZ.
  destruct (Req_dec_T (IZR z) (IZR z)) as [_|Hne]; [|contradiction].
  destruct (Rle_dec 0 (IZR z)) as [_|Hneg]; [reflexivity|].
  exfalso. apply Hneg. now apply IZR_le.
Qed.

(** The index computed always names an entry of the palette. *)
Lemma viridis_in_palette :
  exists i : nat,
    (i < 10)%nat
    /\ i = Z.to_nat (Zfloor (viridis_scale value min max * 9))
    /\ viridis_index value min max = INR i
    /\ nth_error viridisColors i = Some (viridis_triple value min max).
Proof.
  pose proof viridis_floor_range as Hz.
  set (z := Zfloor (viridis_scale value min max * 9)) in *.
  exists (Z.to_nat z). split; [lia|]. split; [reflexivity|]. split.
  - rewrite viridis_index_floor. fold z.
    rewrite INR_IZR_INZ, Z2Nat.id by lia. reflexivity.
  - unfold viridis_triple. rewrite viridis_index_floor. fold z.
    rewrite array_index_integer by lia.
    destruct (nth_error viridisColors (Z.to_nat z)) as [color|] eqn:E;
      [reflexivity|].
    apply nth_error_None in E. cbn in E. lia.
Qed.
End Palette.

Lemma brightness_of_palette (i : nat) (r g b : nat) :
  nth_error viridisColors i = Some (r, g, b) ->
  (@num_gt R RNumUI
     (getBrightness (@ofnat R RNum r) (@ofnat R RNum g) (@ofnat R RNum b))
     (ofZ 128) = true <-> (6 <= i)%nat).
Proof.
  intros Hcolor. unfold getBrightness, ofnat.
  cbn [num_gt num_add num_mul num_div RNum RNumUI]. rewrite !ofZ_R.
  do 10 (destruct i as [|i];
         [injection Hcolor as <- <- <-; cbn [Z.of_nat Pos.of_succ_nat Pos.succ];
          destruct (Rlt_dec _ _) as [Hlt|Hge];
          split; intros Hyp; try reflexivity; try discriminate; try lia;
          exfalso; lra|]).
  destruct i; discriminate Hcolor.
Qed.

Section PaletteEdges.
Local Open Scope R_scope.
Variables value min max : R.
Hypothesis range : min < max.

Let x := (value - min) / (max - min).

Lemma viridis_scale_clamp : viridis_scale value min max = Rmax 0 (Rmin 1 x).
Proof.
  unfold viridis_scale. cbn [Math_max Math_min num_sub num_div RNum RNumUI].
  now rewrite !ofZ_R.
Qed.

Lemma ratio_sign : (x <= 0 <-> value <= min) /\ (1 <= x <-> max <= value)
                   /\ (2 / 3 <= x <-> 2 * (max - min) <= 3 * (value - min)).
Proof.
  assert (Hw : 0 < max - min) by lra.
  assert (Hx : x * (max - min) = value - min) by (unfold x; field; lra).
  repeat split; intros Hyp; nra.
Qed.

Lemma viridis_scale_low : value <= min -> viridis_scale value min max = 0.
Proof.
  intros Hv. rewrite viridis_scale_clamp.
  apply ratio_sign in Hv. rewrite Rmin_right by lra. apply Rmax_left. lra.
Qed.

Lemma viridis_scale_high : max <= value -> viridis_scale value min max = 1.
Proof.
  intros Hv. rewrite viridis_scale_clamp.
  apply ratio_sign in Hv. rewrite Rmin_left by lra. apply Rmax_right. lra.
Qed.

Lemma viridis_scale_two_thirds :
  2 / 3 <= viridis_scale value min max <-> 2 * (max - min) <= 3 * (value - min).
Proof.
  rewrite viridis_scale_clamp.
  destruct ratio_sign as (_ & _ & <-).
  unfold Rmax, Rmin.
  destruct (Rle_dec 1 x); destruct (Rle_dec 0 1); destruct (Rle_dec 0 x);
    split; intros; lra.
Qed.
End PaletteEdges.

Lemma viridis_triple_at (value min max : R) (z : Z) :
  (viridis_scale value min max * 9 = IZR z)%R ->
  nth_error viridisColors (Z.to_nat z) = Some (viridis_triple value min max).
Proof.
  intros Hz. destruct (viridis_in_palette value min max) as (i & _ & Hi & _ & Hnth).
  rewrite Hz, ZfloorZ in Hi. now subst i.
Qed.

Lemma viridis_index_monotone (value value' min max : R) :
  (min < max)%R -> (value <= value')%R ->
  (viridis_index value min max <= viridis_index value' min max)%R.
Proof.
  intros Hrange Hv. rewrite !viridis_index_floor.
  apply IZR_le, Zfloor_le.
  rewrite !viridis_scale_clamp.
  assert (Hw : (0 < / (max - min))%R) by (apply Rinv_0_lt_compat; lra).
  assert (Hx : ((value - min) / (max - min) <= (value' - min) / (max - min))%R).
  { unfold Rdiv. apply Rmult_le_compat_r; lra. }
  apply Rmult_le_compat_r; [lra|].
  apply Rle_max_compat_l. apply Rle_min_compat_l. exact Hx.
Qed.

(** X12. For min < max [viridisColor] stays inside its palette: the index
    it computes is one of 0..9 and the colour returned is that entry of the
    table; the index grows with the value, a value at or below min gets the
    first colour and a value at or above max the last. *)
Theorem viridisColor_in_palette (value min max : R) :
  (min < max)%R ->
  (exists i : nat,
      (i < 10)%nat
      /\ viridis_index value min max = INR i
      /\ exists color, nth_error viridisColors i = Some color
                       /\ viridisColor value min max = rgb color)
  /\ (forall value', (value <= value')%R ->
        (viridis_index value min max <= viridis_index value' min max)%R)
  /\ ((value <= min)%R -> viridisColor value min max = "rgb(68, 1, 84)"%string)
  /\ ((max <= value)%R -> viridisColor value min max = "rgb(253, 231, 37)"%string).
Proof.
  intros Hrange. split; [|split; [|split]].
  - destruct (viridis_in_palette value min max) as (i & Hi & _ & Hidx & Hnth).
    exists i. split; [exact Hi|]. split; [exact Hidx|].
    exists (viridis_triple value min max). split; [exact Hnth|reflexivity].
  - intros value' Hv. now apply viridis_index_monotone.
  - intros Hlow. unfold viridisColor.
    pose proof (@viridis_triple_at value min max 0) as Hnth.
    rewrite viridis_scale_low in Hnth by assumption.
    specialize (Hnth ltac:(lra)). cbn in Hnth.
    injection Hnth as <-. reflexivity.
  - intros Hhigh. unfold viridisColor.
    pose proof (@viridis_triple_at value min max 9) as Hnth.
    rewrite viridis_scale_high in Hnth by assumption.
    specialize (Hnth ltac:(lra)). cbn in Hnth.
    injection Hnth as <-. reflexivity.
Qed.

Lemma viridisColor_in_palette_witness :
  (exists i : nat,
      (i < 10)%nat
      /\ viridis_index 7%R 0%R 10%R = INR i
      /\ exists color, nth_error viridisColors i = Some color
                       /\ viridisColor 7%R 0%R 10%R = rgb color)
  /\ (forall value', (7 <= value')%R ->
        (viridis_index 7%R 0%R 10%R <= viridis_index value' 0%R 10%R)%R)
  /\ ((7 <= 0)%R -> viridisColor 7%R 0%R 10%R = "rgb(68, 1, 84)"%string)
  /\ ((10 <= 7)%R -> viridisColor 7%R 0%R 10%R = "rgb(253, 231, 37)"%string).
Proof. apply (@viridisColor_in_palette 7%R 0%R 10%R). lra. Defined.

Lemma cellStyle_black_index (value min max : R) :
  snd (cellStyle value min max) = "black"%string
  <-> (6 <= Zfloor (viridis_scale value min max * 9))%Z.
Proof.
  destruct (viridis_in_palette value min max) as (i & Hi & Hz & _ & Hnth).
  pose proof (viridis_floor_range value min max) as Hrange.
  unfold cellStyle, viridisColor. cbn [snd].
  destruct (viridis_triple value min max) as [[r g] b].
  rewrite parse_rgb_round_trip. unfold arr_get. cbn [nth].
  pose proof (brightness_of_palette i Hnth) as Hbright.
  destruct (num_gt _ _).
  - split; [intros _|reflexivity].
    assert (6 <= i)%nat by (now apply Hbright). lia.
  - split; [discriminate|]. intros Hsix.
    assert (true = false) by (symmetry; apply Hbright; lia). discriminate.
Qed.

(** X13. For min < max [cellStyle] keeps the colour of [viridisColor] as
    background and picks the text colour from its brightness: black from
    the seventh palette entry on, white before, which is black exactly when
    the value lies in the upper third of the range,
    3 (value - min) >= 2 (max - min). *)
Theorem cellStyle_text_colour (value min max : R) :
  (min < max)%R ->
  fst (cellStyle value min max) = viridisColor value min max
  /\ (snd (cellStyle value min max) = "black"%string
      \/ snd (cellStyle value min max) = "white"%string)
  /\ (snd (cellStyle value min max) = "black"%string
      <-> (6 <= viridis_index value min max)%R)
  /\ (snd (cellStyle value min max) = "black"%string
      <-> (2 * (max - min) <= 3 * (value - min))%R).
Proof.
  intros Hrange.
  pose proof (cellStyle_black_index value min max) as Hblack.
  pose proof (Zfloor_bound (viridis_scale value min max * 9)) as [Hlo Hhi].
  split; [reflexivity|]. split; [|split].
  - unfold cellStyle. cbn [snd]. destruct (num_gt _ _); [now left|now right].
  - rewrite Hblack, viridis_index_floor. split; intros Hyp.
    + now apply (IZR_le 6).
    + now apply (le_IZR 6).
  - rewrite Hblack.
    rewrite <- (viridis_scale_two_thirds value Hrange). split; intros Hyp.
    + apply (IZR_le 6) in Hyp. lra.
    + apply Zfloor_lub. lra.
Qed.

Lemma cellStyle_text_colour_witness :
  fst (cellStyle 7%R 0%R 10%R) = viridisColor 7%R 0%R 10%R
  /\ (snd (cellStyle 7%R 0%R 10%R) = "black"%string
      \/ snd (cellStyle 7%R 0%R 10%R) = "white"%string)
  /\ (snd (cellStyle 7%R 0%R 10%R) = "black"%string
      <-> (6 <= viridis_index 7%R 0%R 10%R)%R)
  /\ (snd (cellStyle 7%R 0%R 10%R) = "black"%string
      <-> (2 * (10 - 0) <= 3 * (7 - 0))%R).
Proof. apply (@cellStyle_text_colour 7%R 0%R 10%R). lra. Defined.

(** ** The least and the greatest value of a grid *)

Section Extremes.
Local Open Scope R_scope.

Lemma fold_Rmin_spec (rest : list R) :
  forall x,
    (fold_left Rmin rest x <= x
     /\ Forall (Rle (fold_left Rmin rest x)) rest)
    /\ In (fold_left Rmin rest x) (x :: rest).
Proof.
  induction rest as [|y rest IH]; intros x; cbn [fold_left].
  - split; [split; [lra|constructor]|now left].
  - destruct (IH (Rmin x y)) as [[Hle Hall] Hin].
    pose proof (Rmin_l x y). pose proof (Rmin_r x y).
    split; [split; [lra|constructor; [lra|exact Hall]]|].
    destruct Hin as [Hhead | Htail]; [|right; now right].
    rewrite <- Hhead. unfold Rmin. destruct (Rle_dec x y); [now left|right; now left].
Qed.

Lemma fold_Rmax_spec (rest : list R) :
  forall x,
    (x <= fold_left Rmax rest x
     /\ Forall (fun y => y <= fold_left Rmax rest x) rest)
    /\ In (fold_left Rmax rest x) (x :: rest).
Proof.
  induction rest as [|y rest IH]; intros x; cbn [fold_left].
  - split; [split; [lra|constructor]|now left].
  - destruct (IH (Rmax x y)) as [[Hle Hall] Hin].
    pose proof (Rmax_l x y). pose proof (Rmax_r x y).
    split; [split; [lra|constructor; [lra|exact Hall]]|].
    destruct Hin as [Hhead | Htail]; [|right; now right].
    rewrite <- Hhead. unfold Rmax. destruct (Rle_dec x y); [right; now left|now left].
Qed.

(** Of a grid that holds a value, [Math.min] returns the least value and
    [Math.max] the greatest. *)
Lemma extremes (values : list R) :
  values <> [] ->
  In (Math_min_all values) values
  /\ In (Math_max_all values) values
  /\ forall v, In v values -> Math_min_all values <= v <= Math_max_all values.
Proof.
  destruct values as [|x rest]; [contradiction|]. intros _.
  cbn [Math_min_all Math_max_all Math_min Math_max RNum RNumUI].
  destruct (fold_Rmin_spec rest x) as [[Hmin Hmins] Hmin_in].
  destruct (fold_Rmax_spec rest x) as [[Hmax Hmaxs] Hmax_in].
  split; [exact Hmin_in|]. split; [exact Hmax_in|].
  intros v [<- | Hv]; [lra|].
  rewrite Forall_forall in Hmins, Hmaxs. split; [now apply Hmins|now apply Hmaxs].
Qed.

Lemma entry_in_concat {A : Type} (data : list (list A)) (i j : nat) (x : A) :
  entry data i j = Some x -> In x (List.concat data).
Proof.
  unfold entry. destruct (nth_error data i) as [row|] eqn:Erow; [|discriminate].
  intros Hx. apply in_concat. exists row. split.
  - eapply nth_error_In. exact Erow.
  - eapply nth_error_In. exact Hx.
Qed.
End Extremes.

(** ** The plot of the second draft *)

Lemma entry_map_map {A B : Type} (f : A -> B) (data : list (list A)) (i j : nat) :
  entry (map (map f) data) i j = option_map f (entry data i j).
Proof.
  unfold entry. rewrite nth_error_map.
  destruct (nth_error data i) as [row|]; [|reflexivity].
  cbn. apply nth_error_map.
Qed.

Lemma map_map_id {A B : Type} (f : A -> B) (g : B -> A) (data : list (list A)) :
  (forall x, g (f x) = x) -> map (map g) (map (map f) data) = data.
Proof.
  intros Hgf. rewrite map_map. rewrite <- (map_id data) at 2.
  apply map_ext. intros row. rewrite map_map. rewrite <- (map_id row) at 2.
  apply map_ext. exact Hgf.
Qed.

(** X14. [formatHeatmapData] keeps the shape and the values of the grid,
    the text it attaches is [value.toFixed(2)], and in a grid that holds
    two different values a cell is marked white exactly when its value is
    above the midpoint of the least and the greatest value, and black
    otherwise. *)
Theorem formatHeatmapData_cells (toFixed_text : R -> string) (data : list (list R)) :
  map (map (@cell_value R)) (formatHeatmapData toFixed_text data) = data
  /\ plot_text toFixed_text data = map (map toFixed_text) data
  /\ forall lo hi,
       In lo (List.concat data) -> In hi (List.concat data) -> (lo < hi)%R ->
       forall i j cell,
         entry (formatHeatmapData toFixed_text data) i j = Some cell ->
         (cell_color cell = "white"%string
          <-> (Math_min_all (List.concat data) + Math_max_all (List.concat data)
               < 2 * cell_value cell)%R)
         /\ (cell_color cell = "white"%string \/ cell_color cell = "black"%string).
Proof.
  split; [|split].
  - unfold formatHeatmapData. apply map_map_id. reflexivity.
  - unfold plot_text, formatHeatmapData. rewrite map_map.
    apply map_ext. intros row. rewrite map_map. reflexivity.
  - intros lo hi Hlo Hhi Hlt i j cell Hcell.
    assert (Hne : List.concat data <> []) by (intros E; now rewrite E in Hlo).
    destruct (extremes Hne) as (_ & _ & Hbounds).
    pose proof (Hbounds lo Hlo) as Blo. pose proof (Hbounds hi Hhi) as Bhi.
    set (mn := Math_min_all (List.concat data)) in *.
    set (mx := Math_max_all (List.concat data)) in *.
    unfold formatHeatmapData in Hcell. fold mn mx in Hcell.
    rewrite entry_map_map in Hcell.
    destruct (entry data i j) as [value|]; [|discriminate].
    injection Hcell as <-. cbn [cell_color cell_value].
    cbn [num_gt num_sub num_div num_lit RNum RNumUI].
    assert (Hw : (0 < mx - mn)%R) by lra.
    assert (Hratio : ((value - mn) / (mx - mn) * (mx - mn) = value - mn)%R)
      by (field; lra).
    destruct (Rlt_dec 0.5 ((value - mn) / (mx - mn))) as [Hwhite|Hblack].
    + split; [|now left]. split; [intros _; nra|reflexivity].
    + split; [|now right]. split; [discriminate|]. intros Hmid. exfalso. nra.
Qed.

Section PlotRange.
Local Open Scope R_scope.

(** In a grid of non-negative values that holds a value, the floor of
    [zmin] at zero is idle and every entry lies between [zmin] and [zmax]. *)
Lemma plot_range (data : list (list R)) :
  Forall (Forall (Rle 0)) data -> List.concat data <> [] ->
  plot_zmin data = Math_min_all (List.concat data)
  /\ forall i j c, entry data i j = Some c -> plot_zmin data <= c <= plot_zmax data.
Proof.
  intros Hfloor Hne. destruct (extremes Hne) as (Hmin_in & _ & Hbounds).
  assert (Hmin : 0 <= Math_min_all (List.concat data)).
  { apply in_concat in Hmin_in as (row & Hrow & Hin).
    rewrite Forall_forall in Hfloor. specialize (Hfloor row Hrow).
    rewrite Forall_forall in Hfloor. now apply Hfloor. }
  assert (Hzmin : plot_zmin data = Math_min_all (List.concat data)).
  { unfold plot_zmin. rewrite ofZ_R. cbn [Math_max RNum]. now apply Rmax_left. }
  split; [exact Hzmin|].
  intros i j c Hc. rewrite Hzmin. unfold plot_zmax.
  apply Hbounds. eapply entry_in_concat. exact Hc.
Qed.
End PlotRange.

(** With K_min >= 0.01, K_min <= K_max and sigma >= 0.11 both axes of the
    second draft are positive: every cell is priced where the formulas are
    defined. *)
Lemma V2_axes_positive (inputs : Inputs R) :
  (0.01 <= in_K_min inputs)%R -> (in_K_min inputs <= in_K_max inputs)%R ->
  (0.11 <= in_sigma inputs)%R ->
  Forall (Rlt 0) (V2.strikePrices inputs)
  /\ Forall (Rlt 0) (V2.volatilities inputs).
Proof.
  intros Hmin Hmax Hsigma.
  assert (Hcent : R_toFixed2 (IZR 1 / 100) = (IZR 1 / 100)%R)
    by apply R_toFixed2_cents.
  split; apply Forall_forall; intros x Hin;
    apply (In_nth _ _ 0%R) in Hin as (k & Hk & <-).
  - change (List.length (V2.strikePrices inputs)) with 10%nat in Hk.
    rewrite strike_at by exact Hk.
    apply Rlt_le_trans with (R_toFixed2 (IZR 1 / 100)); [rewrite Hcent; lra|].
    apply R_toFixed2_monotone. unfold Spec.linear_strike.
    replace (INR 10 - 1)%R with 9%R by (cbn; ring).
    assert (Hk0 : (0 <= INR k)%R) by apply pos_INR.
    assert (Hw : (0 <= in_K_max inputs - in_K_min inputs)%R) by lra.
    pose proof (Rmult_le_pos _ _ Hk0 Hw). lra.
  - change (List.length (V2.volatilities inputs)) with 10%nat in Hk.
    rewrite V2_volatility_at by exact Hk.
    apply Rlt_le_trans with (R_toFixed2 (IZR 1 / 100)); [rewrite Hcent; lra|].
    apply R_toFixed2_monotone.
    eapply Rle_trans; [|apply Rmax_l].
    pose proof (pos_INR (9 - k)). lra.
Qed.

(** X15. For either known model and inputs that keep every cell inside the
    domain of the formulas (S > 0, T > 0, N >= 1, 0.01 <= K_min <= K_max and
    sigma >= 0.11, so that both axes are positive) the colour range of the
    second draft's plot is the range of the prices: the floor of [zmin] at
    zero changes nothing, and every entry of the call and of the put matrix
    lies between [zmin] and [zmax] (exact arithmetic). *)
Theorem V2_plot_range (erf : R -> R) (model : string) (inputs : Inputs R) :
  model = "Black-Scholes"%string \/ model = "Binomial Tree"%string ->
  (0 < in_S inputs)%R -> (0 < in_T inputs)%R -> (1 <= in_N inputs)%Z ->
  (0.01 <= in_K_min inputs)%R -> (in_K_min inputs <= in_K_max inputs)%R ->
  (0.11 <= in_sigma inputs)%R ->
  Forall (Rlt 0) (V2.strikePrices inputs)
  /\ Forall (Rlt 0) (V2.volatilities inputs)
  /\ (plot_zmin (fst (V2_heatmap erf model inputs))
      = Math_min_all (List.concat (fst (V2_heatmap erf model inputs)))
      /\ forall i j c, entry (fst (V2_heatmap erf model inputs)) i j = Some c ->
           (plot_zmin (fst (V2_heatmap erf model inputs)) <= c
            <= plot_zmax (fst (V2_heatmap erf model inputs)))%R)
  /\ (plot_zmin (snd (V2_heatmap erf model inputs))
      = Math_min_all (List.concat (snd (V2_heatmap erf model inputs)))
      /\ forall i j c, entry (snd (V2_heatmap erf model inputs)) i j = Some c ->
           (plot_zmin (snd (V2_heatmap erf model inputs)) <= c
            <= plot_zmax (snd (V2_heatmap erf model inputs)))%R).
Proof.
  intros Hmodel _ _ _ Hmin Hmax Hsigma.
  destruct (V2_axes_positive inputs Hmin Hmax Hsigma) as [Hstrikes Hvols].
  split; [exact Hstrikes|]. split; [exact Hvols|].
  assert (HR : forall x : R, (0 <= Math_max x (ofZ 0))%R).
  { intros x. rewrite ofZ_R. apply Rmax_r. }
  pose proof (@V2_grid_floored _ RNum erf (Rle 0) HR model inputs
                (V2.strikePrices inputs) (V2.volatilities inputs)) as [Hc Hp].
  pose proof (V2_grid erf inputs (V2.strikePrices inputs) (V2.volatilities inputs)
                Hmodel) as (_ & _ & _ & _ & Hentries).
  destruct (Hentries 0%nat 0%nat _ _ eq_refl eq_refl) as (c0 & p0 & _ & Ec & Ep).
  fold (V2_heatmap erf model inputs) in Hc, Hp, Ec, Ep.
  split; apply plot_range; try assumption.
  - intros E. apply entry_in_concat in Ec. now rewrite E in Ec.
  - intros E. apply entry_in_concat in Ep. now rewrite E in Ep.
Qed.

Lemma V2_plot_range_witness :
  Forall (Rlt 0) (V2.strikePrices default_inputs)
  /\ Forall (Rlt 0) (V2.volatilities default_inputs)
  /\ (plot_zmin (fst (V2_heatmap softsign "Binomial Tree" default_inputs))
      = Math_min_all (List.concat (fst (V2_heatmap softsign "Binomial Tree" default_inputs)))
      /\ forall i j c,
           entry (fst (V2_heatmap softsign "Binomial Tree" default_inputs)) i j = Some c ->
           (plot_zmin (fst (V2_heatmap softsign "Binomial Tree" default_inputs)) <= c
            <= plot_zmax (fst (V2_heatmap softsign "Binomial Tree" default_inputs)))%R)
  /\ (plot_zmin (snd (V2_heatmap softsign "Binomial Tree" default_inputs))
      = Math_min_all (List.concat (snd (V2_heatmap softsign "Binomial Tree" default_inputs)))
      /\ forall i j c,
           entry (snd (V2_heatmap softsign "Binomial Tree" default_inputs)) i j = Some c ->
           (plot_zmin (snd (V2_heatmap softsign "Binomial Tree" default_inputs)) <= c
            <= plot_zmax (snd (V2_heatmap softsign "Binomial Tree" default_inputs)))%R).
Proof.
  apply V2_plot_range; [right; reflexivity|..];
    unfold default_inputs;
    cbn [in_S in_T in_N in_K_min in_K_max in_sigma]; first [lra|lia].
Defined.

(** ** The colour bar of the first draft *)

Section ColourBar.
Local Open Scope R_scope.
Variables min max height : R.
Hypothesis ordered : min <= max.
Hypothesis narrow_range : max - min < 2 ^ 32.

Let a := Zceil (min / 5).
Let b := Zfloor (max / 5).

Lemma rounded_bounds : min <= IZR a * 5 /\ IZR b * 5 <= max /\ (a <= b + 1)%Z.
Proof.
  pose proof (Zceil_bound (min / 5)) as [Ha1 Ha2].
  pose proof (Zfloor_bound (max / 5)) as [Hb1 Hb2].
  fold a in Ha1, Ha2. fold b in Hb1, Hb2.
  split; [lra|]. split; [lra|].
  assert (Hlt : IZR a < IZR (b + 2)) by (rewrite plus_IZR; lra).
  apply lt_IZR in Hlt. lia.
Qed.

Lemma steps_count :
  (IZR b * 5 - IZR a * 5) / 5 + 1 = IZR (b - a + 1)
  /\ (0 <= b - a + 1)%Z
  /\ IZR (b - a + 1) < 2 ^ 32.
Proof.
  destruct rounded_bounds as (Hlo & Hhi & Hab).
  split; [rewrite plus_IZR, minus_IZR; field|]. split; [lia|].
  rewrite plus_IZR, minus_IZR.
  assert (H32 : 2 ^ 32 = 4294967296) by (cbn; ring). lra.
Qed.

Lemma array_length_steps :
  array_length ((IZR b * 5 - IZR a * 5) / 5 + 1) = Some (Z.to_nat (b - a + 1)).
Proof.
  destruct steps_count as (-> & Hpos & Hsmall).
  cbn [array_length RNumUI]. rewrite ZfloorZ.
  destruct (Req_dec_T _ _) as [_|Hne]; [|contradiction].
  destruct (Rle_dec 0 _) as [_|Hneg]; [|exfalso; apply Hneg; now apply IZR_le].
  destruct (Rlt_dec _ _) as [_|Hbig]; [reflexivity|contradiction].
Qed.

Lemma ColorBar_ticks_unfold :
  ColorBar_ticks min max height
  = Some (map (fun i =>
                 if Req_dec_T (IZR a * 5 + INR i * 5) (IZR b * 5) then None
                 else Some (IZR a * 5 + INR i * 5,
                            (IZR a * 5 + INR i * 5 - min) / (max - min)
                            * (height - 20)))
              (seq 0 (Z.to_nat (b - a + 1)))).
Proof.
  unfold ColorBar_ticks.
  cbn [Math_ceil Math_floor num_add num_sub num_mul num_div num_eq RNum RNumUI].
  rewrite !ofZ_R. fold a b. rewrite array_length_steps.
  f_equal. apply map_ext. intros i. rewrite ofnat_R.
  destruct (Req_dec_T _ _); reflexivity.
Qed.

Lemma tick_at (i : nat) (tick : option (R * R)) :
  nth_error
    (map (fun i =>
            if Req_dec_T (IZR a * 5 + INR i * 5) (IZR b * 5) then None
            else Some (IZR a * 5 + INR i * 5,
                       (IZR a * 5 + INR i * 5 - min) / (max - min) * (height - 20)))
       (seq 0 (Z.to_nat (b - a + 1)))) i = Some tick ->
  (i < Z.to_nat (b - a + 1))%nat
  /\ tick = if Req_dec_T (IZR a * 5 + INR i * 5) (IZR b * 5) then None
            else Some (IZR a * 5 + INR i * 5,
                       (IZR a * 5 + INR i * 5 - min) / (max - min) * (height - 20)).
Proof.
  intros Hnth.
  assert (Hi : (i < Z.to_nat (b - a + 1))%nat).
  { eapply Nat.lt_le_trans;
      [apply nth_error_Some; rewrite Hnth; discriminate
      |rewrite length_map, length_seq; lia]. }
  split; [exact Hi|].
  rewrite nth_error_map, nth_error_nth' with (d := 0%nat) in Hnth
    by (rewrite length_seq; exact Hi).
  rewrite seq_nth in Hnth by exact Hi. cbn [option_map Nat.add] in Hnth.
  now injection Hnth as <-.
Qed.
End ColourBar.

(** X16. For min <= max less than 2^32 apart, [ColorBar] builds its ticks
    without a RangeError: one index per multiple of 5 from the first at or
    above min to the last at or below max, of which the last is skipped
    (it is drawn as the top label) and every other one is a multiple of 5
    between min and max - 5, placed between 0 and height - 20 pixels from
    the bottom when height >= 20. *)
Theorem ColorBar_ticks_on_bar (min max height : R) :
  (min <= max)%R -> (max - min < 2 ^ 32)%R ->
  exists ticks,
    ColorBar_ticks min max height = Some ticks
    /\ Z.of_nat (List.length ticks) = (Zfloor (max / 5) - Zceil (min / 5) + 1)%Z
    /\ (forall i, (i < List.length ticks)%nat ->
          (nth_error ticks i = Some None <-> i = (List.length ticks - 1)%nat))
    /\ (forall i value position,
          nth_error ticks i = Some (Some (value, position)) ->
          (exists k : Z, value = IZR k * 5)%R
          /\ (min <= value <= max - 5)%R
          /\ ((20 <= height)%R -> (0 <= position <= height - 20)%R)).
Proof.
  intros Hordered Hrange.
  destruct (rounded_bounds Hordered) as (Hlo & Hhi & Hab).
  rewrite (ColorBar_ticks_unfold height Hordered Hrange).
  set (a := Zceil (min / 5)) in *. set (b := Zfloor (max / 5)) in *.
  eexists. split; [reflexivity|].
  rewrite length_map, length_seq.
  assert (Hskip : forall i : nat,
             (IZR a * 5 + INR i * 5 = IZR b * 5)%R <-> Z.of_nat i = (b - a)%Z).
  { intros i. rewrite INR_IZR_INZ. split; intros Hyp.
    - apply eq_IZR. rewrite minus_IZR. lra.
    - apply (f_equal IZR) in Hyp. rewrite minus_IZR in Hyp. lra. }
  split; [lia|]. split.
  - intros i Hi.
    rewrite nth_error_map, nth_error_nth' with (d := 0%nat)
      by (rewrite length_seq; exact Hi).
    rewrite seq_nth by exact Hi. cbn [option_map Nat.add].
    destruct (Req_dec_T _ _) as [Heq|Hne].
    + apply Hskip in Heq. split; [intros _; lia|reflexivity].
    + split; [discriminate|]. intros Hlast. exfalso. apply Hne, Hskip. lia.
  - intros i value position Htick.
    apply tick_at in Htick as [Hi Htick].
    fold a b in Hi, Htick.
    destruct (Req_dec_T _ _) as [Heq|Hne]; [discriminate|].
    injection Htick as -> ->.
    assert (Hbefore : (Z.of_nat i <= b - a - 1)%Z).
    { assert (Z.of_nat i <> (b - a)%Z) by (intros E; now apply Hne, Hskip). lia. }
    apply IZR_le in Hbefore. rewrite !minus_IZR, <- INR_IZR_INZ in Hbefore.
    pose proof (pos_INR i) as Hi0.
    split; [exists (a + Z.of_nat i)%Z; rewrite plus_IZR, <- INR_IZR_INZ; ring|].
    assert (Hvalue : (min <= IZR a * 5 + INR i * 5 <= max - 5)%R) by lra.
    split; [exact Hvalue|].
    intros Hheight.
    assert (Hw : (0 < max - min)%R) by lra.
    set (value := (IZR a * 5 + INR i * 5)%R) in *.
    assert (Hrel : (0 <= (value - min) / (max - min) <= 1)%R).
    { split.
      - apply Rmult_le_pos; [lra|]. left. now apply Rinv_0_lt_compat.
      - apply Rmult_le_reg_r with (max - min)%R; [exact Hw|].
        unfold Rdiv. rewrite Rmult_assoc, Rinv_l by lra. lra. }
    split; nra.
Qed.

Lemma ColorBar_ticks_on_bar_witness :
  exists ticks,
    ColorBar_ticks 2%R 31%R 450%R = Some ticks
    /\ Z.of_nat (List.length ticks) = (Zfloor (31 / 5) - Zceil (2 / 5) + 1)%Z
    /\ (forall i, (i < List.length ticks)%nat ->
          (nth_error ticks i = Some None <-> i = (List.length ticks - 1)%nat))
    /\ (forall i value position,
          nth_error ticks i = Some (Some (value, position)) ->
          (exists k : Z, value = IZR k * 5)%R
          /\ (2 <= value <= 31 - 5)%R
          /\ ((20 <= 450)%R -> (0 <= position <= 450 - 20)%R)).
Proof.
  apply ColorBar_ticks_on_bar; [lra|].
  assert (H32 : (2 ^ 32 = 4294967296)%R) by (cbn; ring). lra.
Defined.

(** * Edge cases of the lattice *)

(** X17. With no steps the lattice prices the option at its intrinsic
    value, max(0, S - K) for the call and max(0, K - S) for any other
    option-type string, whatever T, r, sigma and q are (exact
    arithmetic). *)
Theorem binomialTree_zero_steps_intrinsic (S K T r sigma q : R) (optionType : string) :
  binomialTree S K T r sigma q 0 "call" = Some (Rmax 0 (S - K))
  /\ (optionType <> "call"%string ->
      binomialTree S K T r sigma q 0 optionType = Some (Rmax 0 (K - S))).
Proof.
  assert (Hterminal :
            forall u, (0 < u)%R -> terminal S u (@num_div R RNum (ofZ 1) u) 0 0 = S).
  { intros u Hu. unfold terminal.
    cbn [num_mul num_sub num_div Math_pow RNum].
    rewrite !ofZ_R, ofnat_R. cbn [INR].
    replace (0 - 0)%R with 0%R by ring.
    rewrite !Rpower_O; [ring|apply Rdiv_lt_0_compat; lra|exact Hu]. }
  split.
  - rewrite binomialTree_zero_steps, Hterminal by apply exp_pos.
    unfold payoff. cbn [String.eqb Ascii.eqb Bool.eqb].
    now rewrite ofZ_R.
  - intros Hother.
    rewrite binomialTree_zero_steps, Hterminal by apply exp_pos.
    unfold payoff. apply String.eqb_neq in Hother. rewrite Hother.
    now rewrite ofZ_R.
Qed.

(** X18. With a negative step count the lattice returns [undefined]: the
    point prices of the first draft are both [undefined], those of the
    second draft are both NaN in binary64, as [Math.max(undefined, 0)] is. *)
Theorem negative_steps_no_price {num : Type} {HN : JSNum num} (erf : num -> num)
    (inputs : Inputs num) (M : ESMath) (ferf : float -> float)
    (finputs : Inputs float) :
  (in_N inputs < 0)%Z -> (in_N finputs < 0)%Z ->
  V1.computeResults erf "Binomial Tree" inputs = Some (None, None)
  /\ @V2.computeResults _ (IEEE M) ferf "Binomial Tree" finputs = Some (nan, nan).
Proof.
  intros Hneg Hfneg. split.
  - unfold V1.computeResults. cbn [String.eqb Ascii.eqb Bool.eqb].
    now rewrite !binomialTree_negative_steps.
  - unfold V2.computeResults. cbn [String.eqb Ascii.eqb Bool.eqb].
    now rewrite !binomialTree_negative_steps.
Qed.

(** The inputs of [Home] with a step count of -1. *)
Definition negative_steps_inputs : Inputs R :=
  {| in_S := 100.42%R; in_K_min := 80.0%R; in_K_max := 120.0%R;
     in_K_specific := 93.45%R; in_T := 1.0%R; in_r := 0.05%R;
     in_sigma := 0.2%R; in_q := 0.0%R; in_N := -1 |}.

Definition negative_steps_finputs : Inputs float :=
  {| in_S := 100%float; in_K_min := 80%float; in_K_max := 120%float;
     in_K_specific := 95%float; in_T := 1%float; in_r := 0%float;
     in_sigma := 1%float; in_q := 0%float; in_N := -1 |}.

Lemma negative_steps_no_price_witness :
  V1.computeResults softsign "Binomial Tree" negative_steps_inputs = Some (None, None)
  /\ @V2.computeResults _ (IEEE taylor_math) (fun x => x) "Binomial Tree"
       negative_steps_finputs = Some (nan, nan).
Proof.
  apply (@negative_steps_no_price R RNum softsign negative_steps_inputs
           taylor_math (fun x => x) negative_steps_finputs);
    reflexivity.
Defined.

Section Poison.
Variable M : ESMath.
Local Abbreviation F := (IEEE M).

Lemma node_nan (disc : float) (value : list float) (i : nat) :
  @node _ F disc nan value i = nan.
Proof.
  unfold node. cbn [num_mul num_add num_sub IEEE].
  now rewrite nan_mul_l, nan_add_l, nan_mul_r.
Qed.

Lemma narrow_nan_root (disc : float) (k : nat) (value : list float) :
  nth_error (fold_left (@narrow _ F disc nan) (rev (seq 0 (k + 1))) value) 0
  = Some nan.
Proof.
  rewrite Nat.add_1_r. cbn [seq]. cbn [rev]. rewrite fold_left_app.
  cbn [fold_left]. unfold narrow at 1. cbn [Nat.add seq map nth_error].
  now rewrite node_nan.
Qed.
End Poison.

(** X19. In binary64 a NaN up probability poisons the price: for any step
    count N >= 1, if the up probability the lattice computes is NaN, as it
    is when u = d, then [binomialTree] returns NaN for every spot, strike
    and option-type string. *)
Theorem binomialTree_nan_probability (M : ESMath) (S K T r sigma q : float)
    (N : Z) (optionType : string) :
  (1 <= N)%Z ->
  (let dt := @num_div _ (IEEE M) T (@ofZ _ (IEEE M) N) in
   let u := @Math_exp _ (IEEE M) (@num_mul _ (IEEE M) sigma (@Math_sqrt _ (IEEE M) dt)) in
   let d := @num_div _ (IEEE M) (@ofZ _ (IEEE M) 1) u in
   @num_div _ (IEEE M)
     (@num_sub _ (IEEE M)
        (@Math_exp _ (IEEE M) (@num_mul _ (IEEE M) (@num_sub _ (IEEE M) r q) dt)) d)
     (@num_sub _ (IEEE M) u d) = nan) ->
  @binomialTree _ (IEEE M) S K T r sigma q N optionType = Some nan.
Proof.
  intros HN Hp. cbv zeta in Hp.
  rewrite binomialTree_narrowing by lia. unfold lattice. rewrite Hp.
  replace (Z.to_nat N) with (Z.to_nat N - 1 + 1)%nat at 1 by lia.
  apply narrow_nan_root.
Qed.

Lemma binomialTree_nan_probability_witness :
  @binomialTree _ (IEEE taylor_math) 100%float 95%float 1%float 0%float 0%float
    0%float 3 "call" = Some nan.
Proof.
  apply (@binomialTree_nan_probability taylor_math 100%float 95%float 1%float
           0%float 0%float 0%float 3 "call"); [lia|reflexivity].
Defined.
